(** * vedo.transformations: the LinearTransform facade over the VTK transform engine

    The Python class [LinearTransform] (src/vedo/transformations.py) wraps a
    [vtkTransform].  Floating-point numbers (numpy / C doubles) are idealised
    as real numbers: every statement below is about exact real arithmetic, and
    rounding is outside the model.

    The file has three layers:
    - [Mat]    : [vtkMatrix4x4], the 16 doubles and the operations on them;
    - [Engine] : [vtkTransform] with its concatenation (pieces, pre/post
                 mode, inverse flag), as far as the facade drives it;
    - [LT]     : the methods of [LinearTransform], one definition each.

    VTK is an external library, not part of the Python sources: [Mat] and
    [Engine] write its operations down from the behaviour the library
    documents (post-multiply puts the new matrix on the left, [M' = A * M];
    pre-multiply on the right, [M' = M * A]).  The decompositions
    [GetScale] and [GetOrientation] are left abstract. *)

From Stdlib Require Import Reals Lra List Bool Arith Lia.
Import ListNotations.

Local Open Scope R_scope.

(** ** 3-vectors (numpy arrays of shape (3,), VTK [double[3]]) *)

Module Vec.

Definition vec3 : Type := (R * R * R)%type.

Definition vx (v : vec3) : R := fst (fst v).
Definition vy (v : vec3) : R := snd (fst v).
Definition vz (v : vec3) : R := snd v.

Definition add (a b : vec3) : vec3 := (vx a + vx b, vy a + vy b, vz a + vz b).
Definition sub (a b : vec3) : vec3 := (vx a - vx b, vy a - vy b, vz a - vz b).
Definition neg (a : vec3) : vec3 := (- vx a, - vy a, - vz a).
Definition smul (k : R) (a : vec3) : vec3 := (k * vx a, k * vy a, k * vz a).
Definition muls (a : vec3) (k : R) : vec3 := (vx a * k, vy a * k, vz a * k).
Definition sdiv (a : vec3) (k : R) : vec3 := (vx a / k, vy a / k, vz a / k).

(** [np.linalg.norm] on a 3-vector. *)
Definition norm (a : vec3) : R :=
  sqrt (vx a * vx a + vy a * vy a + vz a * vz a).

Definition zero : vec3 := (0, 0, 0).

End Vec.

(** ** vtkMatrix4x4 *)

Module Mat.

Record vtkMatrix4x4 : Type := mk {
  e00 : R; e01 : R; e02 : R; e03 : R;
  e10 : R; e11 : R; e12 : R; e13 : R;
  e20 : R; e21 : R; e22 : R; e23 : R;
  e30 : R; e31 : R; e32 : R; e33 : R
}.

(** A freshly allocated [vtkMatrix4x4()] is the identity. *)
Definition Identity : vtkMatrix4x4 :=
  mk 1 0 0 0
     0 1 0 0
     0 0 1 0
     0 0 0 1.

(** [GetElement(i, j)]; the C++ accessor has no bounds check, the model
    answers [None] outside the 4x4 array. *)
Definition GetElement (m : vtkMatrix4x4) (i j : nat) : option R :=
  match i, j with
  | 0, 0 => Some (e00 m) | 0, 1 => Some (e01 m) | 0, 2 => Some (e02 m) | 0, 3 => Some (e03 m)
  | 1, 0 => Some (e10 m) | 1, 1 => Some (e11 m) | 1, 2 => Some (e12 m) | 1, 3 => Some (e13 m)
  | 2, 0 => Some (e20 m) | 2, 1 => Some (e21 m) | 2, 2 => Some (e22 m) | 2, 3 => Some (e23 m)
  | 3, 0 => Some (e30 m) | 3, 1 => Some (e31 m) | 3, 2 => Some (e32 m) | 3, 3 => Some (e33 m)
  | _, _ => None
  end%nat.

(** [SetElement(i, j, v)]; [None] outside the 4x4 array (no defined
    behaviour in the engine). *)
Definition SetElement (m : vtkMatrix4x4) (i j : nat) (v : R) : option vtkMatrix4x4 :=
  let '(mk a00 a01 a02 a03 a10 a11 a12 a13 a20 a21 a22 a23 a30 a31 a32 a33) := m in
  match i, j with
  | 0, 0 => Some (mk v a01 a02 a03 a10 a11 a12 a13 a20 a21 a22 a23 a30 a31 a32 a33)
  | 0, 1 => Some (mk a00 v a02 a03 a10 a11 a12 a13 a20 a21 a22 a23 a30 a31 a32 a33)
  | 0, 2 => Some (mk a00 a01 v a03 a10 a11 a12 a13 a20 a21 a22 a23 a30 a31 a32 a33)
  | 0, 3 => Some (mk a00 a01 a02 v a10 a11 a12 a13 a20 a21 a22 a23 a30 a31 a32 a33)
  | 1, 0 => Some (mk a00 a01 a02 a03 v a11 a12 a13 a20 a21 a22 a23 a30 a31 a32 a33)
  | 1, 1 => Some (mk a00 a01 a02 a03 a10 v a12 a13 a20 a21 a22 a23 a30 a31 a32 a33)
  | 1, 2 => Some (mk a00 a01 a02 a03 a10 a11 v a13 a20 a21 a22 a23 a30 a31 a32 a33)
  | 1, 3 => Some (mk a00 a01 a02 a03 a10 a11 a12 v a20 a21 a22 a23 a30 a31 a32 a33)
  | 2, 0 => Some (mk a00 a01 a02 a03 a10 a11 a12 a13 v a21 a22 a23 a30 a31 a32 a33)
  | 2, 1 => Some (mk a00 a01 a02 a03 a10 a11 a12 a13 a20 v a22 a23 a30 a31 a32 a33)
  | 2, 2 => Some (mk a00 a01 a02 a03 a10 a11 a12 a13 a20 a21 v a23 a30 a31 a32 a33)
  | 2, 3 => Some (mk a00 a01 a02 a03 a10 a11 a12 a13 a20 a21 a22 v a30 a31 a32 a33)
  | 3, 0 => Some (mk a00 a01 a02 a03 a10 a11 a12 a13 a20 a21 a22 a23 v a31 a32 a33)
  | 3, 1 => Some (mk a00 a01 a02 a03 a10 a11 a12 a13 a20 a21 a22 a23 a30 v a32 a33)
  | 3, 2 => Some (mk a00 a01 a02 a03 a10 a11 a12 a13 a20 a21 a22 a23 a30 a31 v a33)
  | 3, 3 => Some (mk a00 a01 a02 a03 a10 a11 a12 a13 a20 a21 a22 a23 a30 a31 a32 v)
  | _, _ => None
  end%nat.

(** [vtkMatrix4x4::Multiply4x4(a, b, out)]: [out = a * b]. *)
Definition Multiply4x4 (a b : vtkMatrix4x4) : vtkMatrix4x4 :=
  mk (e00 a * e00 b + e01 a * e10 b + e02 a * e20 b + e03 a * e30 b)
     (e00 a * e01 b + e01 a * e11 b + e02 a * e21 b + e03 a * e31 b)
     (e00 a * e02 b + e01 a * e12 b + e02 a * e22 b + e03 a * e32 b)
     (e00 a * e03 b + e01 a * e13 b + e02 a * e23 b + e03 a * e33 b)
     (e10 a * e00 b + e11 a * e10 b + e12 a * e20 b + e13 a * e30 b)
     (e10 a * e01 b + e11 a * e11 b + e12 a * e21 b + e13 a * e31 b)
     (e10 a * e02 b + e11 a * e12 b + e12 a * e22 b + e13 a * e32 b)
     (e10 a * e03 b + e11 a * e13 b + e12 a * e23 b + e13 a * e33 b)
     (e20 a * e00 b + e21 a * e10 b + e22 a * e20 b + e23 a * e30 b)
     (e20 a * e01 b + e21 a * e11 b + e22 a * e21 b + e23 a * e31 b)
     (e20 a * e02 b + e21 a * e12 b + e22 a * e22 b + e23 a * e32 b)
     (e20 a * e03 b + e21 a * e13 b + e22 a * e23 b + e23 a * e33 b)
     (e30 a * e00 b + e31 a * e10 b + e32 a * e20 b + e33 a * e30 b)
     (e30 a * e01 b + e31 a * e11 b + e32 a * e21 b + e33 a * e31 b)
     (e30 a * e02 b + e31 a * e12 b + e32 a * e22 b + e33 a * e32 b)
     (e30 a * e03 b + e31 a * e13 b + e32 a * e23 b + e33 a * e33 b).

(** 3x3 determinant, [vtkMatrix3x3::Determinant] style (rows a, b, c). *)
Definition det3 (a1 a2 a3 b1 b2 b3 c1 c2 c3 : R) : R :=
  a1 * b2 * c3 + b1 * c2 * a3 + c1 * a2 * b3
  - a1 * c2 * b3 - b1 * a2 * c3 - c1 * b2 * a3.

(** [vtkMatrix4x4::Determinant]: cofactor expansion along the first row. *)
Definition Determinant (m : vtkMatrix4x4) : R :=
  e00 m * det3 (e11 m) (e12 m) (e13 m) (e21 m) (e22 m) (e23 m) (e31 m) (e32 m) (e33 m)
  - e01 m * det3 (e10 m) (e12 m) (e13 m) (e20 m) (e22 m) (e23 m) (e30 m) (e32 m) (e33 m)
  + e02 m * det3 (e10 m) (e11 m) (e13 m) (e20 m) (e21 m) (e23 m) (e30 m) (e31 m) (e33 m)
  - e03 m * det3 (e10 m) (e11 m) (e12 m) (e20 m) (e21 m) (e22 m) (e30 m) (e31 m) (e32 m).

(** [vtkMatrix4x4::Adjoint]: the transposed matrix of cofactors. *)
Definition Adjoint (m : vtkMatrix4x4) : vtkMatrix4x4 :=
  let '(mk a1 b1 c1 d1 a2 b2 c2 d2 a3 b3 c3 d3 a4 b4 c4 d4) := m in
  mk (det3 b2 b3 b4 c2 c3 c4 d2 d3 d4)
     (- det3 b1 b3 b4 c1 c3 c4 d1 d3 d4)
     (det3 b1 b2 b4 c1 c2 c4 d1 d2 d4)
     (- det3 b1 b2 b3 c1 c2 c3 d1 d2 d3)
     (- det3 a2 a3 a4 c2 c3 c4 d2 d3 d4)
     (det3 a1 a3 a4 c1 c3 c4 d1 d3 d4)
     (- det3 a1 a2 a4 c1 c2 c4 d1 d2 d4)
     (det3 a1 a2 a3 c1 c2 c3 d1 d2 d3)
     (det3 a2 a3 a4 b2 b3 b4 d2 d3 d4)
     (- det3 a1 a3 a4 b1 b3 b4 d1 d3 d4)
     (det3 a1 a2 a4 b1 b2 b4 d1 d2 d4)
     (- det3 a1 a2 a3 b1 b2 b3 d1 d2 d3)
     (- det3 a2 a3 a4 b2 b3 b4 c2 c3 c4)
     (det3 a1 a3 a4 b1 b3 b4 c1 c3 c4)
     (- det3 a1 a2 a4 b1 b2 b4 c1 c2 c4)
     (det3 a1 a2 a3 b1 b2 b3 c1 c2 c3).

Definition map16 (f : R -> R) (m : vtkMatrix4x4) : vtkMatrix4x4 :=
  let '(mk a00 a01 a02 a03 a10 a11 a12 a13 a20 a21 a22 a23 a30 a31 a32 a33) := m in
  mk (f a00) (f a01) (f a02) (f a03) (f a10) (f a11) (f a12) (f a13)
     (f a20) (f a21) (f a22) (f a23) (f a30) (f a31) (f a32) (f a33).

(** [vtkMatrix4x4::Invert]: adjoint divided by the determinant; when the
    determinant is zero the routine returns early and the matrix stays as
    it is. *)
Definition Invert (m : vtkMatrix4x4) : vtkMatrix4x4 :=
  let det := Determinant m in
  if Req_dec_T det 0 then m
  else map16 (fun x => x / det) (Adjoint m).

End Mat.

(** ** The transform engine: vtkTransform and its concatenation

    A [vtkTransform] owns a [vtkTransformConcatenation]: an ordered list of
    pieces, a pre/post multiply mode and an inverse flag.  The pieces are
    kept here in the order in which [GetTransform(i)] of the engine hands
    them out, and by value (a piece that is another transform is taken by
    the matrix it has when it is concatenated).  The first piece may be the
    open [PreMatrix] and the last one the open [PostMatrix], into which
    [Translate], [Scale], [RotateWXYZ] and [SetMatrix] fold their matrix.
    The facade never calls [SetInput] or [Push], so a transform has no input
    and an empty push stack. *)

Module Engine.

Import Vec Mat.

Record vtkTransform : Type := mkT {
  PreMultiplyFlag : bool;
  InverseFlag : bool;
  PreMatrix : option vtkMatrix4x4;
  Middle : list vtkMatrix4x4;
  PostMatrix : option vtkMatrix4x4
}.

(** [vtkTransform()]: empty concatenation, pre-multiply mode (the engine's
    default), not inverted. *)
Definition new : vtkTransform := mkT true false None [] None.

Definition opt_list {A} (o : option A) : list A :=
  match o with Some a => [a] | None => [] end.

Definition TransformList (t : vtkTransform) : list vtkMatrix4x4 :=
  opt_list (PreMatrix t) ++ Middle t ++ opt_list (PostMatrix t).

Definition GetNumberOfConcatenatedTransforms (t : vtkTransform) : nat :=
  length (TransformList t).

(** [InternalUpdate]: starting from the identity the pieces are multiplied
    in, piece 0 applied first, so that the matrix is
    [P(n-1) * ... * P1 * P0]. *)
Fixpoint compose (l : list vtkMatrix4x4) : vtkMatrix4x4 :=
  match l with
  | [] => Identity
  | p :: rest => Multiply4x4 (compose rest) p
  end.

Definition GetMatrix (t : vtkTransform) : vtkMatrix4x4 :=
  compose (TransformList t).

Definition PreMultiply (t : vtkTransform) : vtkTransform :=
  mkT true (InverseFlag t) (PreMatrix t) (Middle t) (PostMatrix t).

Definition PostMultiply (t : vtkTransform) : vtkTransform :=
  mkT false (InverseFlag t) (PreMatrix t) (Middle t) (PostMatrix t).

Definition GetInverseFlag (t : vtkTransform) : bool := InverseFlag t.

Definition or_identity (o : option vtkMatrix4x4) : vtkMatrix4x4 :=
  match o with Some m => m | None => Identity end.

(** [Concatenate(const double elements[16])]: fold the matrix into the open
    pre- or post-matrix, creating it (as the identity) when there is none. *)
Definition ConcatenateElements (a : vtkMatrix4x4) (t : vtkTransform) : vtkTransform :=
  if PreMultiplyFlag t then
    mkT (PreMultiplyFlag t) (InverseFlag t)
        (Some (Multiply4x4 (or_identity (PreMatrix t)) a)) (Middle t) (PostMatrix t)
  else
    mkT (PreMultiplyFlag t) (InverseFlag t)
        (PreMatrix t) (Middle t) (Some (Multiply4x4 a (or_identity (PostMatrix t)))).

(** [Concatenate(transform)], a linear transform: the open matrix on that side is
    closed and the transform becomes a new first (pre) or last (post)
    piece. *)
Definition Concatenate (x : vtkTransform) (t : vtkTransform) : vtkTransform :=
  if PreMultiplyFlag t then
    mkT (PreMultiplyFlag t) (InverseFlag t)
        None (GetMatrix x :: opt_list (PreMatrix t) ++ Middle t) (PostMatrix t)
  else
    mkT (PreMultiplyFlag t) (InverseFlag t)
        (PreMatrix t) (Middle t ++ opt_list (PostMatrix t) ++ [GetMatrix x]) None.

(** [Identity()]: the concatenation is emptied; mode and inverse flag stay. *)
Definition Identity_ (t : vtkTransform) : vtkTransform :=
  mkT (PreMultiplyFlag t) (InverseFlag t) None [] None.

(** [SetMatrix(m)]: [Identity()] followed by [Concatenate(elements)]. *)
Definition SetMatrix (m : vtkMatrix4x4) (t : vtkTransform) : vtkTransform :=
  ConcatenateElements m (Identity_ t).

(** [Pop()]: nothing to restore when nothing was pushed. *)
Definition Pop (t : vtkTransform) : vtkTransform := t.

(** [Inverse()]: every piece is inverted, their order is reversed, pre and
    post sides are exchanged and the inverse flag is toggled. *)
Definition Inverse (t : vtkTransform) : vtkTransform :=
  mkT (PreMultiplyFlag t) (negb (InverseFlag t))
      (option_map Invert (PostMatrix t))
      (rev (map Invert (Middle t)))
      (option_map Invert (PreMatrix t)).

(** [GetInverse()]: a transform that is the inverse of a copy of this
    one.  The engine keeps it tied to this transform and derives it again
    when this one changes; here it is the inverse at the time of the
    call. *)
Definition GetInverse (t : vtkTransform) : vtkTransform := Inverse t.

(** [Clone()]: [vtkTransform] has no method of this name, so the attribute
    lookup raises AttributeError whatever the transform is. *)
Definition Clone (t : vtkTransform) : option vtkTransform := None.

(** [GetConcatenatedTransform(i)]: piece [i], as a transform of its own. *)
Definition GetConcatenatedTransform (i : nat) (t : vtkTransform) : option vtkTransform :=
  match nth_error (TransformList t) i with
  | Some p => Some (mkT true false (Some p) [] None)
  | None => None
  end.

Definition Reqb (x y : R) : bool := if Req_dec_T x y then true else false.

Definition translation (x y z : R) : vtkMatrix4x4 :=
  mk 1 0 0 x
     0 1 0 y
     0 0 1 z
     0 0 0 1.

Definition scaling (x y z : R) : vtkMatrix4x4 :=
  mk x 0 0 0
     0 y 0 0
     0 0 z 0
     0 0 0 1.

(** [Translate(x, y, z)]: nothing happens for the zero vector. *)
Definition Translate (v : vec3) (t : vtkTransform) : vtkTransform :=
  let '(x, y, z) := v in
  if Reqb x 0 && Reqb y 0 && Reqb z 0 then t
  else ConcatenateElements (translation x y z) t.

(** [Scale(x, y, z)]: nothing happens for unit factors. *)
Definition Scale (x y z : R) (t : vtkTransform) : vtkTransform :=
  if Reqb x 1 && Reqb y 1 && Reqb z 1 then t
  else ConcatenateElements (scaling x y z) t.

(** [vtkMath::RadiansFromDegrees]. *)
Definition RadiansFromDegrees (a : R) : R := a * (PI / 180).

(** The matrix that [RotateWXYZ] builds from the normalised quaternion
    [(w, x, y, z)]. *)
Definition quaternion_matrix (w x y z : R) : vtkMatrix4x4 :=
  let ww := w * w in
  let wx := w * x in
  let wy := w * y in
  let wz := w * z in
  let xx := x * x in
  let yy := y * y in
  let zz := z * z in
  let xy := x * y in
  let xz := x * z in
  let yz := y * z in
  let s := ww - xx - yy - zz in
  mk (xx * 2 + s)    ((xy - wz) * 2) ((xz + wy) * 2) 0
     ((xy + wz) * 2) (yy * 2 + s)    ((yz - wx) * 2) 0
     ((xz - wy) * 2) ((yz + wx) * 2) (zz * 2 + s)    0
     0               0               0               1.

(** The matrix of [RotateWXYZ(angle, x, y, z)], angle in degrees: the axis
    is normalised and scaled by the sine of the half angle. *)
Definition rotation_elements (angle x y z : R) : vtkMatrix4x4 :=
  let angle := RadiansFromDegrees angle in
  let w := cos (0.5 * angle) in
  let f := sin (0.5 * angle) / sqrt (x * x + y * y + z * z) in
  let x := x * f in
  let y := y * f in
  let z := z * f in
  quaternion_matrix w x y z.

(** [RotateWXYZ(angle, x, y, z)]: nothing happens for a zero angle or a
    zero axis. *)
Definition RotateWXYZ (angle x y z : R) (t : vtkTransform) : vtkTransform :=
  if Reqb angle 0 || (Reqb x 0 && Reqb y 0 && Reqb z 0) then t
  else ConcatenateElements (rotation_elements angle x y z) t.

Definition RotateX (angle : R) : vtkTransform -> vtkTransform := RotateWXYZ angle 1 0 0.
Definition RotateY (angle : R) : vtkTransform -> vtkTransform := RotateWXYZ angle 0 1 0.
Definition RotateZ (angle : R) : vtkTransform -> vtkTransform := RotateWXYZ angle 0 0 1.

(** [GetPosition()]: the last column of the first three rows. *)
Definition GetPosition (t : vtkTransform) : vec3 :=
  let m := GetMatrix t in (e03 m, e13 m, e23 m).

(** A linear transform maps a point with the first three rows only. *)
Definition LinearTransformPoint (m : vtkMatrix4x4) (p : vec3) : vec3 :=
  let '(x, y, z) := p in
  (e00 m * x + e01 m * y + e02 m * z + e03 m,
   e10 m * x + e11 m * y + e12 m * z + e13 m,
   e20 m * x + e21 m * y + e22 m * z + e23 m).

(** [TransformFloatPoint]: the engine computes it in single precision;
    as everywhere in this file the result is the exact one. *)
Definition TransformFloatPoint (t : vtkTransform) (p : vec3) : vec3 :=
  LinearTransformPoint (GetMatrix t) p.

(** The decompositions [GetScale] (singular values of the upper 3x3 block)
    and [GetOrientation] (Euler angles) are computed by the engine from
    the current matrix; they are taken as given. *)
Class Decomposition : Type := {
  scale_of : vtkMatrix4x4 -> vec3;
  orientation_of : vtkMatrix4x4 -> vec3
}.

Definition GetScale `{Decomposition} (t : vtkTransform) : vec3 :=
  scale_of (GetMatrix t).

Definition GetOrientation `{Decomposition} (t : vtkTransform) : vec3 :=
  orientation_of (GetMatrix t).

End Engine.

(** ** The facade: class LinearTransform

    Arguments that the Python code tells apart at run time ([T is None],
    [isinstance], [_is_sequence(arg)], [origin is True], [around is None])
    are tagged unions here, one constructor per branch taken.  A method that
    can raise returns an [option]. *)

Module LT.

Import Vec Mat Engine.

Notation "x <- e ;; k" :=
  (match e with Some x => k | None => None end)
  (at level 61, e at next level, right associativity, only parsing).

(** An instance holds the engine object [self.T] and the attribute
    [self.inverse_flag]. *)
Record LinearTransform : Type := mkLT {
  T : vtkTransform;
  inverse_flag : bool
}.

(** Methods mutate [self.T] in place and return [self]. *)
Definition with_T (self : LinearTransform) (T' : vtkTransform) : LinearTransform :=
  mkLT T' (inverse_flag self).

(** What [__init__] can be given: nothing, a [vtkMatrix4x4], a
    [vtkLandmarkTransform] (met through its [GetMatrix()]), a nested
    sequence, or an object that is stored as it is (a [vtkTransform]). *)
Inductive init_arg : Type :=
| ArgNone
| ArgMatrix4x4 (M : vtkMatrix4x4)
| ArgLandmark (M : vtkMatrix4x4)
| ArgSequence (T : list (list R))
| ArgOther (T : vtkTransform).

(** [for i in idx: s = body(i, s)], stopping at the first exception. *)
Fixpoint for_range {S : Type} (idx : list nat) (body : nat -> S -> option S) (s : S)
  : option S :=
  match idx with
  | [] => Some s
  | i :: rest =>
      match body i s with
      | Some s' => for_range rest body s'
      | None => None
      end
  end.

(** [n = len(T); for i in range(n): for j in range(n): M.SetElement(i, j, T[i][j])].
    [T[i][j]] raises IndexError on a short row. *)
Definition copy_elements (T : list (list R)) (M : vtkMatrix4x4) : option vtkMatrix4x4 :=
  let n := length T in
  for_range (seq 0 n) (fun i M =>
    for_range (seq 0 n) (fun j M =>
      row <- nth_error T i ;;
      v <- nth_error row j ;;
      SetElement M i j v) M) M.

Definition __init__ (arg : init_arg) : option LinearTransform :=
  T <- match arg with
       | ArgNone => Some Engine.new
       | ArgMatrix4x4 M => Some (SetMatrix M Engine.new)
       | ArgLandmark M => Some (SetMatrix M Engine.new)
       | ArgSequence T =>
           M <- copy_elements T Identity ;;
           Some (SetMatrix M Engine.new)
       | ArgOther T => Some T
       end ;;
  Some (mkLT (PostMultiply T) false).

(** *** apply_to *)

Inductive Locator : Type := locator (handle : nat).

(** A geometric object: its points, the Python attribute [transform] and
    the three cached locators. *)
Record Mesh : Type := mkMesh {
  points : list vec3;
  transform : option LinearTransform;
  point_locator : option Locator;
  cell_locator : option Locator;
  line_locator : option Locator
}.

Inductive target : Type :=
| Sequence (p : vec3)
| Object (obj : Mesh).

(** What [apply_to] leaves behind: a returned array, or [None] and the
    object in its new state. *)
Inductive applied : Type :=
| Returned (v : vec3)
| Updated (obj : Mesh).

Definition elements (m : vtkMatrix4x4) : list R :=
  [e00 m; e01 m; e02 m; e03 m; e10 m; e11 m; e12 m; e13 m;
   e20 m; e21 m; e22 m; e23 m; e30 m; e31 m; e32 m; e33 m].

Definition rtol : R := 1e-5.
Definition atol : R := 1e-8.

(** [np.allclose(a, b)] with a scalar [b] and the default tolerances. *)
Definition allclose (a : list R) (b : R) : bool :=
  forallb (fun x => if Rle_dec (Rabs (x - b)) (atol + rtol * Rabs b) then true else false) a.

(** [M - np.eye(4)], flattened. *)
Definition minus_eye (M : vtkMatrix4x4) : list R :=
  map (fun xy => fst xy - snd xy) (combine (elements M) (elements Identity)).

(** [vtkTransformPolyDataFilter]: every point goes through the transform. *)
Definition TransformPolyData (t : vtkTransform) (pts : list vec3) : list vec3 :=
  map (TransformFloatPoint t) pts.

Definition apply_to (self : LinearTransform) (obj : target) : applied :=
  match obj with
  | Sequence p => Returned (TransformFloatPoint (T self) p)
  | Object obj =>
      let obj := mkMesh (points obj) (Some self)
                        (point_locator obj) (cell_locator obj) (line_locator obj) in
      let M := GetMatrix (T self) in
      if allclose (minus_eye M) 0 then Updated obj
      else
        let out := TransformPolyData (T self) (points obj) in
        Updated (mkMesh out (transform obj) None None None)
  end.

(** *** Stack operations *)

Definition reset (self : LinearTransform) : LinearTransform :=
  with_T self (Identity_ (T self)).

Definition pop (self : LinearTransform) : LinearTransform :=
  with_T self (Pop (T self)).

Definition invert (self : LinearTransform) : LinearTransform :=
  let T' := Inverse (T self) in
  mkLT T' (GetInverseFlag T').

Definition compute_inverse (self : LinearTransform) : option LinearTransform :=
  __init__ (ArgOther (GetInverse (T self))).

Definition clone (self : LinearTransform) : option LinearTransform :=
  T' <- Clone (T self) ;;
  __init__ (ArgOther T').

Definition concatenate (other : LinearTransform) (pre_multiply : bool)
           (self : LinearTransform) : LinearTransform :=
  let T0 := if pre_multiply then PreMultiply (T self) else T self in
  let T1 := Concatenate (T other) T0 in
  with_T self (PostMultiply T1).

Definition get_concatenated_transform (i : nat) (self : LinearTransform)
  : option LinearTransform :=
  Ti <- GetConcatenatedTransform i (T self) ;;
  __init__ (ArgOther Ti).

Definition n_concatenated_transforms (self : LinearTransform) : nat :=
  GetNumberOfConcatenatedTransforms (T self).

(** *** Translate, scale, rotate *)

Definition translate (p : vec3) (self : LinearTransform) : LinearTransform :=
  with_T self (Translate p (T self)).

(** A number or a sequence of three numbers. *)
Inductive scalar_or_seq : Type :=
| Scalar (s : R)
| Seq3 (s : vec3).

(** [if not _is_sequence(s): s = [s, s, s]]. *)
Definition broadcast (s : scalar_or_seq) : vec3 :=
  match s with
  | Scalar s => (s, s, s)
  | Seq3 s => s
  end.

(** The [origin] argument of [scale]: the object [True], a sequence, or
    anything else. *)
Inductive origin_arg : Type :=
| OriginTrue
| OriginSeq (q : vec3)
| OriginOther.

Definition scale (s : scalar_or_seq) (origin : origin_arg) (self : LinearTransform)
  : LinearTransform :=
  let '(s0, s1, s2) := broadcast s in
  match origin with
  | OriginTrue =>
      let p := GetPosition (T self) in
      if Rlt_dec 0 (norm p) then
        let T1 := Translate (neg p) (T self) in
        let T2 := Scale s0 s1 s2 T1 in
        with_T self (Translate p T2)
      else
        with_T self (Scale s0 s1 s2 (T self))
  | OriginSeq _ =>
      let p := GetPosition (T self) in
      let T1 := Translate (neg p) (T self) in
      let T2 := Scale s0 s1 s2 T1 in
      with_T self (Translate p T2)
  | OriginOther =>
      with_T self (Scale s0 s1 s2 (T self))
  end.

(** [np.deg2rad]. *)
Definition deg2rad (a : R) : R := a * (PI / 180).

Definition mat3 : Type := (vec3 * vec3 * vec3)%type.

(** [np.dot(R, v)] for a 3x3 [R]. *)
Definition dot (m : mat3) (v : vec3) : vec3 :=
  let '(r0, r1, r2) := m in
  (vx r0 * vx v + vy r0 * vy v + vz r0 * vz v,
   vx r1 * vx v + vy r1 * vy v + vz r1 * vz v,
   vx r2 * vx v + vy r2 * vy v + vz r2 * vz v).

(** The matrix [R] that [rotate] builds from the half-angle quantities. *)
Definition rotate_R (anglerad : R) (axis : vec3) : mat3 :=
  let a := cos (anglerad / 2) in
  let '(b, c, d) := muls (neg axis) (sin (anglerad / 2)) in
  let aa := a * a in
  let bb := b * b in
  let cc := c * c in
  let dd := d * d in
  let bc := b * c in
  let ad := a * d in
  let ac := a * c in
  let ab := a * b in
  let bd := b * d in
  let cd := c * d in
  ((aa + bb - cc - dd, 2 * (bc + ad), 2 * (bd - ac)),
   (2 * (bc - ad), aa + cc - bb - dd, 2 * (cd + ab)),
   (2 * (bd + ac), 2 * (cd - ab), aa + dd - bb - cc)).

Definition rotate (angle : R) (axis point : vec3) (rad : bool) (self : LinearTransform)
  : LinearTransform :=
  let anglerad := if rad then angle else deg2rad angle in
  let axis := sdiv axis (norm axis) in
  let R := rotate_R anglerad axis in
  let rv := add (dot R (sub (GetPosition (T self)) point)) point in
  let angle := if rad then angle * (180 / PI) else angle in
  let T1 := RotateWXYZ angle (vx axis) (vy axis) (vz axis) (T self) in
  with_T self (Translate (sub rv (GetPosition T1)) T1).

Inductive axe : Type := axe_x | axe_y | axe_z.

Definition _rotatexyz (axe : axe) (angle : R) (rad : bool) (around : option vec3)
           (self : LinearTransform) : LinearTransform :=
  let angle := if rad then angle * (180 / PI) else angle in
  let rot := match axe with axe_x => RotateX | axe_y => RotateY | axe_z => RotateZ end in
  match around with
  | None => with_T self (rot angle (T self))
  | Some around =>
      let T1 := Translate (neg around) (T self) in
      let T2 := rot angle T1 in
      with_T self (Translate around T2)
  end.

Definition rotate_x (angle : R) (rad : bool) (around : option vec3) :=
  _rotatexyz axe_x angle rad around.
Definition rotate_y (angle : R) (rad : bool) (around : option vec3) :=
  _rotatexyz axe_y angle rad around.
Definition rotate_z (angle : R) (rad : bool) (around : option vec3) :=
  _rotatexyz axe_z angle rad around.

(** *** Position and scale accessors *)

(** A point given with two or with three coordinates. *)
Inductive point_arg : Type :=
| P2 (p0 p1 : R)
| P3 (p : vec3).

Definition set_position (p : point_arg) (self : LinearTransform) : LinearTransform :=
  let p := match p with P2 p0 p1 => (p0, p1, 0) | P3 p => p end in
  let q := GetPosition (T self) in
  with_T self (Translate (sub p q) (T self)).

Definition position (self : LinearTransform) : vec3 := GetPosition (T self).

(** The 4x4 array of the sixteen [GetElement(i, j)]. *)
Definition matrix (self : LinearTransform) : vtkMatrix4x4 := GetMatrix (T self).

Definition set_matrix (M : list (list R)) (self : LinearTransform) : option LinearTransform :=
  m <- copy_elements M Identity ;;
  Some (with_T self (SetMatrix m (T self))).

Definition matrix3x3 (self : LinearTransform) : mat3 :=
  let m := GetMatrix (T self) in
  ((e00 m, e01 m, e02 m), (e10 m, e11 m, e12 m), (e20 m, e21 m, e22 m)).

(** The body of [set_orientation] is commented out: it returns [self]. *)
Definition set_orientation (self : LinearTransform) : LinearTransform := self.

(** Truth value of a float: nonzero. *)
Definition truthy (r : R) : bool := negb (Reqb r 0).

(** [a / b] on floats raises ZeroDivisionError for a zero divisor. *)
Definition truediv (a b : R) : option R :=
  if Reqb b 0 then None else Some (a / b).

Section WithDecomposition.

Context `{Decomposition}.

Definition set_scale (s : scalar_or_seq) (self : LinearTransform) : option LinearTransform :=
  let s := broadcast s in
  let b := GetScale (T self) in
  s0 <- (if truthy (vx b) then truediv (vx s) (vx b) else Some 1) ;;
  s1 <- (if truthy (vy b) then truediv (vy s) (vy b) else Some 1) ;;
  s2 <- (if truthy (vz b) then truediv (vz s) (vz b) else Some 1) ;;
  Some (with_T self (Scale s0 s1 s2 (T self))).

Definition get_scale (self : LinearTransform) : vec3 := GetScale (T self).

Definition orientation (self : LinearTransform) : vec3 := GetOrientation (T self).

(** *** Every method that can leave [self] in a new state *)

Inductive method : Type :=
| m_apply_to (obj : target)
| m_reset
| m_pop
| m_invert
| m_compute_inverse
| m_clone
| m_concatenate (other : LinearTransform) (pre_multiply : bool)
| m_get_concatenated_transform (i : nat)
| m_translate (p : vec3)
| m_scale (s : scalar_or_seq) (origin : origin_arg)
| m_rotate (angle : R) (axis point : vec3) (rad : bool)
| m_rotate_x (angle : R) (rad : bool) (around : option vec3)
| m_rotate_y (angle : R) (rad : bool) (around : option vec3)
| m_rotate_z (angle : R) (rad : bool) (around : option vec3)
| m_set_position (p : point_arg)
| m_set_scale (s : scalar_or_seq)
| m_set_matrix (M : list (list R))
| m_set_orientation.

(** [self] after the call; [None] when the call raises. *)
Definition call (m : method) (self : LinearTransform) : option LinearTransform :=
  match m with
  | m_apply_to _ => Some self
  | m_reset => Some (reset self)
  | m_pop => Some (pop self)
  | m_invert => Some (invert self)
  | m_compute_inverse => _ <- compute_inverse self ;; Some self
  | m_clone => _ <- clone self ;; Some self
  | m_concatenate other pre_multiply => Some (concatenate other pre_multiply self)
  | m_get_concatenated_transform i => _ <- get_concatenated_transform i self ;; Some self
  | m_translate p => Some (translate p self)
  | m_scale s origin => Some (scale s origin self)
  | m_rotate angle axis point rad => Some (rotate angle axis point rad self)
  | m_rotate_x angle rad around => Some (rotate_x angle rad around self)
  | m_rotate_y angle rad around => Some (rotate_y angle rad around self)
  | m_rotate_z angle rad around => Some (rotate_z angle rad around self)
  | m_set_position p => Some (set_position p self)
  | m_set_scale s => set_scale s self
  | m_set_matrix M => set_matrix M self
  | m_set_orientation => Some (set_orientation self)
  end.

End WithDecomposition.

End LT.

Import Vec Mat Engine LT.

(** * Notions used in the statements *)

(** The facade keeps its engine in post-multiply mode: the constructor sets
    it and every method leaves it so. *)
Definition post_mode (self : LinearTransform) : Prop := PreMultiplyFlag (T self) = false.

(** A matrix applied about a point: translate by minus the point, apply,
    translate back. *)
Definition about_point (m : vtkMatrix4x4) (c : vec3) : vtkMatrix4x4 :=
  Multiply4x4 (translation (vx c) (vy c) (vz c))
    (Multiply4x4 m (translation (vx (neg c)) (vy (neg c)) (vz (neg c)))).

(** A matrix the engine can invert. *)
Definition nonsingular (m : vtkMatrix4x4) : Prop := Determinant m <> 0.

(** [LinearTransform()]. *)
Definition fresh : LinearTransform := mkLT (PostMultiply Engine.new) false.

(** Every entry of [M - np.eye(4)] is within the absolute tolerance of 0. *)
Definition near_identity (m : vtkMatrix4x4) : Prop :=
  Forall (fun d => Rabs d <= atol) (minus_eye m).

(** [T[i][j]] on a nested sequence. *)
Definition entry (S : list (list R)) (i j : nat) : option R :=
  match nth_error S i with
  | Some row => nth_error row j
  | None => None
  end.

(** A decomposition to run the statements on: the scale is read off the
    diagonal and no rotation is reported. *)
Definition diagonal_decomposition : Decomposition :=
  {| scale_of := fun m => (e00 m, e11 m, e22 m);
     orientation_of := fun _ => Vec.zero |}.

(** The last row of an affine matrix. *)
Definition affine (m : vtkMatrix4x4) : Prop :=
  e30 m = 0 /\ e31 m = 0 /\ e32 m = 0 /\ e33 m = 1.

(** Componentwise product of two 3-vectors. *)
Definition mulv (a b : vec3) : vec3 := (vx a * vx b, vy a * vy b, vz a * vz b).

(** The nested list [[m.GetElement(i, j) for j in range(4)] for i in range(4)]
    that the [matrix] getter builds. *)
Definition rows (m : vtkMatrix4x4) : list (list R) :=
  [[e00 m; e01 m; e02 m; e03 m];
   [e10 m; e11 m; e12 m; e13 m];
   [e20 m; e21 m; e22 m; e23 m];
   [e30 m; e31 m; e32 m; e33 m]].

(** The axis that [rotate_x], [rotate_y], [rotate_z] turn about. *)
Definition axis_of (a : axe) : vec3 :=
  match a with
  | axe_x => (1, 0, 0)
  | axe_y => (0, 1, 0)
  | axe_z => (0, 0, 1)
  end.

(** The point a bare-coordinate [apply_to] returns. *)
Definition image (t : LinearTransform) (p : vec3) : vec3 :=
  match apply_to t (Sequence p) with
  | Returned v => v
  | Updated _ => p
  end.

(** Every piece of the concatenation has an affine last row. *)
Definition affine_engine (e : vtkTransform) : Prop := Forall affine (TransformList e).

(** The calls that bring a matrix in from outside bring in an affine one,
    and [rotate] is given an axis it can normalise. *)
Definition affine_call (m : method) : Prop :=
  match m with
  | m_concatenate other _ => affine (matrix other)
  | m_rotate _ axis _ _ => axis <> Vec.zero
  | m_set_matrix M =>
      match copy_elements M Identity with
      | Some m' => affine m'
      | None => True
      end
  | _ => True
  end.

Section Run.

Context `{Decomposition}.

(** A sequence of method calls on one transform, stopping at the first
    call that raises. *)
Fixpoint run (ms : list method) (self : LinearTransform) : option LinearTransform :=
  match ms with
  | [] => Some self
  | m :: rest =>
      match call m self with
      | Some self' => run rest self'
      | None => None
      end
  end.

End Run.

(** * Matrix algebra *)

Ltac mat_unfold :=
  unfold Multiply4x4, Identity, Determinant, Adjoint, map16, det3,
         translation, scaling, quaternion_matrix in *; cbn [e00 e01 e02 e03 e10 e11 e12 e13 e20 e21 e22 e23 e30 e31 e32 e33] in *.

Lemma mk_ext
  (a00 a01 a02 a03 a10 a11 a12 a13 a20 a21 a22 a23 a30 a31 a32 a33 : R)
  (b00 b01 b02 b03 b10 b11 b12 b13 b20 b21 b22 b23 b30 b31 b32 b33 : R) :
  a00 = b00 -> a01 = b01 -> a02 = b02 -> a03 = b03 ->
  a10 = b10 -> a11 = b11 -> a12 = b12 -> a13 = b13 ->
  a20 = b20 -> a21 = b21 -> a22 = b22 -> a23 = b23 ->
  a30 = b30 -> a31 = b31 -> a32 = b32 -> a33 = b33 ->
  mk a00 a01 a02 a03 a10 a11 a12 a13 a20 a21 a22 a23 a30 a31 a32 a33 =
  mk b00 b01 b02 b03 b10 b11 b12 b13 b20 b21 b22 b23 b30 b31 b32 b33.
Proof. intros; subst; reflexivity. Qed.

Ltac mat_ring := mat_unfold; apply mk_ext; ring.

Lemma Multiply4x4_assoc (a b c : vtkMatrix4x4) :
  Multiply4x4 (Multiply4x4 a b) c = Multiply4x4 a (Multiply4x4 b c).
Proof. destruct a, b, c. mat_ring. Qed.

Lemma Multiply4x4_Identity_l (a : vtkMatrix4x4) : Multiply4x4 Identity a = a.
Proof. destruct a. mat_ring. Qed.

Lemma Multiply4x4_Identity_r (a : vtkMatrix4x4) : Multiply4x4 a Identity = a.
Proof. destruct a. mat_ring. Qed.

Lemma Determinant_Multiply4x4 (a b : vtkMatrix4x4) :
  Determinant (Multiply4x4 a b) = Determinant a * Determinant b.
Proof. destruct a, b. mat_unfold. ring. Qed.

Lemma Determinant_Identity : Determinant Identity = 1.
Proof. mat_unfold. ring. Qed.

Lemma Invert_nonsingular (m : vtkMatrix4x4) :
  Determinant m <> 0 ->
  Invert m = map16 (fun v => v / Determinant m) (Adjoint m).
Proof.
  intros Hd. unfold Invert. destruct (Req_dec_T (Determinant m) 0); [contradiction | reflexivity].
Qed.

Lemma Adjoint_left (m : vtkMatrix4x4) :
  Multiply4x4 (Adjoint m) m = map16 (fun v => v * Determinant m) Identity.
Proof. destruct m. mat_ring. Qed.

Lemma Adjoint_right (m : vtkMatrix4x4) :
  Multiply4x4 m (Adjoint m) = map16 (fun v => v * Determinant m) Identity.
Proof. destruct m. mat_ring. Qed.

Lemma Multiply4x4_div_l (d : R) (a b : vtkMatrix4x4) :
  Multiply4x4 (map16 (fun v => v / d) a) b = map16 (fun v => v / d) (Multiply4x4 a b).
Proof. destruct a, b. unfold Rdiv. mat_ring. Qed.

Lemma Multiply4x4_div_r (d : R) (a b : vtkMatrix4x4) :
  Multiply4x4 a (map16 (fun v => v / d) b) = map16 (fun v => v / d) (Multiply4x4 a b).
Proof. destruct a, b. unfold Rdiv. mat_ring. Qed.

Lemma div_mul_Identity (d : R) :
  d <> 0 -> map16 (fun v => v / d) (map16 (fun v => v * d) Identity) = Identity.
Proof. intros Hd. unfold map16, Identity. apply mk_ext; field; exact Hd. Qed.

Lemma Invert_left (m : vtkMatrix4x4) :
  Determinant m <> 0 -> Multiply4x4 (Invert m) m = Identity.
Proof.
  intros Hd. rewrite Invert_nonsingular by assumption.
  rewrite Multiply4x4_div_l, Adjoint_left. apply div_mul_Identity, Hd.
Qed.

Lemma Invert_right (m : vtkMatrix4x4) :
  Determinant m <> 0 -> Multiply4x4 m (Invert m) = Identity.
Proof.
  intros Hd. rewrite Invert_nonsingular by assumption.
  rewrite Multiply4x4_div_r, Adjoint_right. apply div_mul_Identity, Hd.
Qed.

Lemma Determinant_Invert (m : vtkMatrix4x4) :
  Determinant m <> 0 -> Determinant (Invert m) <> 0.
Proof.
  intros Hd Hz.
  assert (E : Determinant (Multiply4x4 (Invert m) m) = 1)
    by (rewrite Invert_left by assumption; apply Determinant_Identity).
  rewrite Determinant_Multiply4x4, Hz in E. lra.
Qed.

Lemma Invert_involutive (m : vtkMatrix4x4) :
  Determinant m <> 0 -> Invert (Invert m) = m.
Proof.
  intros Hd.
  rewrite <- (Multiply4x4_Identity_r (Invert (Invert m))).
  rewrite <- (Invert_left m Hd), <- Multiply4x4_assoc.
  rewrite Invert_left by (apply Determinant_Invert; assumption).
  apply Multiply4x4_Identity_l.
Qed.

(** * The engine: what each operation does to the matrix *)

Lemma compose_app (l1 l2 : list vtkMatrix4x4) :
  compose (l1 ++ l2) = Multiply4x4 (compose l2) (compose l1).
Proof.
  induction l1 as [|p l1 IH]; simpl.
  - now rewrite Multiply4x4_Identity_r.
  - now rewrite IH, Multiply4x4_assoc.
Qed.

Lemma compose_single (p : vtkMatrix4x4) : compose [p] = p.
Proof. simpl. apply Multiply4x4_Identity_l. Qed.

Lemma compose_opt_list (o : option vtkMatrix4x4) : compose (opt_list o) = or_identity o.
Proof. destruct o; simpl; [apply Multiply4x4_Identity_l | reflexivity]. Qed.

(** In pre-multiply mode a matrix is multiplied in on the right, in
    post-multiply mode on the left. *)
Lemma GetMatrix_ConcatenateElements (a : vtkMatrix4x4) (t : vtkTransform) :
  GetMatrix (ConcatenateElements a t) =
    if PreMultiplyFlag t then Multiply4x4 (GetMatrix t) a
    else Multiply4x4 a (GetMatrix t).
Proof.
  unfold ConcatenateElements, GetMatrix, TransformList.
  destruct (PreMultiplyFlag t); cbn [PreMatrix Middle PostMatrix].
  - rewrite !compose_app, !compose_opt_list.
    now rewrite !Multiply4x4_assoc.
  - rewrite !app_assoc, !compose_app. rewrite !compose_opt_list.
    cbn [or_identity]. now rewrite !Multiply4x4_assoc.
Qed.

Lemma GetMatrix_Concatenate (o t : vtkTransform) :
  GetMatrix (Concatenate o t) =
    if PreMultiplyFlag t then Multiply4x4 (GetMatrix t) (GetMatrix o)
    else Multiply4x4 (GetMatrix o) (GetMatrix t).
Proof.
  unfold Concatenate. generalize (GetMatrix o) as a. intros a.
  unfold GetMatrix, TransformList.
  destruct (PreMultiplyFlag t); cbn [PreMatrix Middle PostMatrix opt_list app compose].
  - rewrite <- app_assoc, !compose_app. now rewrite !Multiply4x4_assoc.
  - rewrite app_nil_r, !app_assoc, !compose_app, compose_single. reflexivity.
Qed.

Lemma PreMultiplyFlag_ConcatenateElements (a : vtkMatrix4x4) (t : vtkTransform) :
  PreMultiplyFlag (ConcatenateElements a t) = PreMultiplyFlag t.
Proof. unfold ConcatenateElements. now destruct (PreMultiplyFlag t) eqn:E. Qed.

Lemma Reqb_true (a b : R) : Reqb a b = true -> a = b.
Proof. unfold Reqb. now destruct (Req_dec_T a b). Qed.

Lemma GetMatrix_Translate (v : vec3) (t : vtkTransform) :
  GetMatrix (Translate v t) =
    if PreMultiplyFlag t then Multiply4x4 (GetMatrix t) (translation (vx v) (vy v) (vz v))
    else Multiply4x4 (translation (vx v) (vy v) (vz v)) (GetMatrix t).
Proof.
  destruct v as [[a b] c]. unfold Translate. cbn [vx vy vz fst snd].
  destruct (Reqb a 0 && Reqb b 0 && Reqb c 0) eqn:E.
  - apply andb_prop in E as [E Ec]. apply andb_prop in E as [Ea Eb].
    apply Reqb_true in Ea, Eb, Ec. subst.
    change (translation 0 0 0) with Identity.
    rewrite Multiply4x4_Identity_l, Multiply4x4_Identity_r. now destruct (PreMultiplyFlag t).
  - apply GetMatrix_ConcatenateElements.
Qed.

Lemma GetMatrix_Scale (a b c : R) (t : vtkTransform) :
  GetMatrix (Scale a b c t) =
    if PreMultiplyFlag t then Multiply4x4 (GetMatrix t) (scaling a b c)
    else Multiply4x4 (scaling a b c) (GetMatrix t).
Proof.
  unfold Scale.
  destruct (Reqb a 1 && Reqb b 1 && Reqb c 1) eqn:E.
  - apply andb_prop in E as [E Ec]. apply andb_prop in E as [Ea Eb].
    apply Reqb_true in Ea, Eb, Ec. subst.
    change (scaling 1 1 1) with Identity.
    rewrite Multiply4x4_Identity_l, Multiply4x4_Identity_r. now destruct (PreMultiplyFlag t).
  - apply GetMatrix_ConcatenateElements.
Qed.

Lemma PreMultiplyFlag_Translate (v : vec3) (t : vtkTransform) :
  PreMultiplyFlag (Translate v t) = PreMultiplyFlag t.
Proof.
  destruct v as [[a b] c]. unfold Translate.
  destruct (Reqb a 0 && Reqb b 0 && Reqb c 0);
    [reflexivity | apply PreMultiplyFlag_ConcatenateElements].
Qed.

Lemma PreMultiplyFlag_Scale (a b c : R) (t : vtkTransform) :
  PreMultiplyFlag (Scale a b c t) = PreMultiplyFlag t.
Proof.
  unfold Scale.
  destruct (Reqb a 1 && Reqb b 1 && Reqb c 1);
    [reflexivity | apply PreMultiplyFlag_ConcatenateElements].
Qed.

Lemma PreMultiplyFlag_RotateWXYZ (angle a b c : R) (t : vtkTransform) :
  PreMultiplyFlag (RotateWXYZ angle a b c t) = PreMultiplyFlag t.
Proof.
  unfold RotateWXYZ.
  destruct (Reqb angle 0 || (Reqb a 0 && Reqb b 0 && Reqb c 0));
    [reflexivity | apply PreMultiplyFlag_ConcatenateElements].
Qed.

(** * Rotations *)

Lemma quaternion_matrix_Identity : quaternion_matrix 1 0 0 0 = Identity.
Proof. mat_ring. Qed.

Lemma half_angle (a : R) : 0.5 * a = a / 2.
Proof. lra. Qed.

Lemma rotation_elements_zero (a b c : R) : rotation_elements 0 a b c = Identity.
Proof.
  unfold rotation_elements, RadiansFromDegrees.
  replace (0.5 * (0 * (PI / 180))) with 0 by lra.
  rewrite cos_0, sin_0. unfold Rdiv. rewrite !Rmult_0_l, !Rmult_0_r.
  apply quaternion_matrix_Identity.
Qed.

(** For a nonzero axis [RotateWXYZ] multiplies the rotation matrix in, the
    zero angle included. *)
Lemma GetMatrix_RotateWXYZ (angle a b c : R) (t : vtkTransform) :
  (a, b, c) <> Vec.zero ->
  GetMatrix (RotateWXYZ angle a b c t) =
    if PreMultiplyFlag t then Multiply4x4 (GetMatrix t) (rotation_elements angle a b c)
    else Multiply4x4 (rotation_elements angle a b c) (GetMatrix t).
Proof.
  intros Hax. unfold RotateWXYZ.
  destruct (Reqb angle 0) eqn:Ea; cbn [orb].
  - apply Reqb_true in Ea. subst angle. rewrite rotation_elements_zero.
    rewrite Multiply4x4_Identity_l, Multiply4x4_Identity_r. now destruct (PreMultiplyFlag t).
  - destruct (Reqb a 0 && Reqb b 0 && Reqb c 0) eqn:E.
    + apply andb_prop in E as [E Ec]. apply andb_prop in E as [E1 E2].
      apply Reqb_true in E1, E2, Ec. subst. now elim Hax.
    + apply GetMatrix_ConcatenateElements.
Qed.

Lemma norm_sqr (v : vec3) : norm v * norm v = vx v * vx v + vy v * vy v + vz v * vz v.
Proof. unfold norm. apply sqrt_sqrt. nra. Qed.

Lemma norm_nonzero (v : vec3) : v <> Vec.zero -> norm v <> 0.
Proof.
  intros Hv Hn. pose proof (norm_sqr v) as Hs. rewrite Hn in Hs.
  destruct v as [[a b] c]. cbn [vx vy vz fst snd] in Hs.
  apply Hv. unfold Vec.zero.
  assert (a = 0) by nra. assert (b = 0) by nra. assert (c = 0) by nra.
  now subst.
Qed.

(** [axis / np.linalg.norm(axis)] has unit length. *)
Lemma normalised_unit (v : vec3) :
  v <> Vec.zero ->
  let u := sdiv v (norm v) in
  vx u * vx u + vy u * vy u + vz u * vz u = 1.
Proof.
  intros Hv u. pose proof (norm_nonzero v Hv) as Hn. pose proof (norm_sqr v) as Hs.
  subst u. unfold sdiv. cbn [vx vy vz fst snd].
  replace (vx v / norm v * (vx v / norm v) + vy v / norm v * (vy v / norm v)
           + vz v / norm v * (vz v / norm v))
    with ((vx v * vx v + vy v * vy v + vz v * vz v) / (norm v * norm v))
    by (field; exact Hn).
  rewrite <- Hs. field. exact Hn.
Qed.

Lemma normalised_nonzero (v : vec3) :
  v <> Vec.zero -> (vx (sdiv v (norm v)), vy (sdiv v (norm v)), vz (sdiv v (norm v))) <> Vec.zero.
Proof.
  intros Hv E. pose proof (normalised_unit v Hv) as Hu. cbv zeta in Hu.
  set (u := sdiv v (norm v)) in *. unfold Vec.zero in E.
  assert (E1 : vx u = 0) by exact (f_equal (fun p : vec3 => fst (fst p)) E).
  assert (E2 : vy u = 0) by exact (f_equal (fun p : vec3 => snd (fst p)) E).
  assert (E3 : vz u = 0) by exact (f_equal (fun p : vec3 => snd p) E).
  rewrite E1, E2, E3 in Hu. lra.
Qed.

(** On a unit axis the engine's matrix is the quaternion matrix of the half
    angle. *)
Lemma rotation_elements_unit (angle a b c : R) :
  a * a + b * b + c * c = 1 ->
  let h := RadiansFromDegrees angle / 2 in
  rotation_elements angle a b c =
    quaternion_matrix (cos h) (a * sin h) (b * sin h) (c * sin h).
Proof.
  intros Hu h. unfold rotation_elements. rewrite Hu, sqrt_1, half_angle.
  fold h. unfold Rdiv at 1 2 3. rewrite Rinv_1, Rmult_1_r. reflexivity.
Qed.

Lemma translation_cancel (c : vec3) :
  Multiply4x4 (translation (vx (neg c)) (vy (neg c)) (vz (neg c)))
              (translation (vx c) (vy c) (vz c)) = Identity.
Proof. destruct c as [[c0 c1] c2]. unfold neg. cbn [vx vy vz fst snd]. mat_ring. Qed.

Lemma about_point_mul (a b : vtkMatrix4x4) (c : vec3) :
  Multiply4x4 (about_point a c) (about_point b c) = about_point (Multiply4x4 a b) c.
Proof.
  unfold about_point.
  rewrite !Multiply4x4_assoc. do 2 f_equal.
  rewrite <- (Multiply4x4_assoc _ _ (Multiply4x4 b _)), translation_cancel.
  now rewrite Multiply4x4_Identity_l.
Qed.

Lemma about_point_Identity (c : vec3) : about_point Identity c = Identity.
Proof.
  unfold about_point. rewrite Multiply4x4_Identity_l.
  destruct c as [[c0 c1] c2]. unfold neg. cbn [vx vy vz fst snd]. mat_ring.
Qed.

(** A linear map about a point: the map itself followed by the translation
    that puts the point back. *)
Lemma about_point_linear (q00 q01 q02 q10 q11 q12 q20 q21 q22 : R) (c : vec3) :
  let q := mk q00 q01 q02 0 q10 q11 q12 0 q20 q21 q22 0 0 0 0 1 in
  let d := sub c (LinearTransformPoint q c) in
  about_point q c = Multiply4x4 (translation (vx d) (vy d) (vz d)) q.
Proof.
  destruct c as [[c0 c1] c2]. cbv zeta.
  unfold about_point, LinearTransformPoint, sub, neg. cbn [vx vy vz fst snd].
  mat_ring.
Qed.

Lemma about_point_quaternion (w a b c : R) (pt : vec3) :
  let q := quaternion_matrix w a b c in
  let d := sub pt (LinearTransformPoint q pt) in
  about_point q pt = Multiply4x4 (translation (vx d) (vy d) (vz d)) q.
Proof. unfold quaternion_matrix. cbv zeta. apply about_point_linear. Qed.

Lemma quaternion_conjugate (w a b c : R) :
  w * w + a * a + b * b + c * c = 1 ->
  Multiply4x4 (quaternion_matrix w (- a) (- b) (- c)) (quaternion_matrix w a b c) = Identity.
Proof.
  intros Hn.
  set (n := w * w + a * a + b * b + c * c) in *.
  transitivity (mk (n * n) 0 0 0  0 (n * n) 0 0  0 0 (n * n) 0  0 0 0 1).
  - subst n. mat_ring.
  - rewrite Hn. unfold Identity. apply mk_ext; ring.
Qed.

Lemma quaternion_inverse (w a b c : R) (pt : vec3) :
  w * w + a * a + b * b + c * c = 1 ->
  Multiply4x4 (about_point (quaternion_matrix w (- a) (- b) (- c)) pt)
              (about_point (quaternion_matrix w a b c) pt) = Identity.
Proof.
  intros Hn. rewrite about_point_mul, quaternion_conjugate by exact Hn.
  apply about_point_Identity.
Qed.

Lemma half_of_engine_angle (angle : R) (rad : bool) :
  RadiansFromDegrees (if rad then angle * (180 / PI) else angle) / 2 =
  (if rad then angle else deg2rad angle) / 2.
Proof.
  unfold RadiansFromDegrees, deg2rad. destruct rad; [|reflexivity].
  field. apply PI_neq0.
Qed.

(** The corrective translation of [rotate] does not depend on where the
    transform was: it is [point - R point]. *)
Lemma rotate_correction (w s : R) (u point : vec3) (M : vtkMatrix4x4) :
  let q := quaternion_matrix w (vx u * s) (vy u * s) (vz u * s) in
  let '(b, c, d) := muls (neg u) s in
  let R := ((w * w + b * b - c * c - d * d, 2 * (b * c + w * d), 2 * (b * d - w * c)),
            (2 * (b * c - w * d), w * w + c * c - b * b - d * d, 2 * (c * d + w * b)),
            (2 * (b * d + w * c), 2 * (c * d - w * b), w * w + d * d - b * b - c * c)) in
  let QM := Multiply4x4 q M in
  sub (add (dot R (sub (e03 M, e13 M, e23 M) point)) point) (e03 QM, e13 QM, e23 QM)
  = sub point (LinearTransformPoint q point).
Proof.
  destruct u as [[u0 u1] u2], point as [[p0 p1] p2], M.
  unfold muls, neg, dot, add, sub, LinearTransformPoint. cbn [vx vy vz fst snd].
  mat_unfold. f_equal; [f_equal |]; ring.
Qed.

(** [rotate] multiplies in, on the left, the rotation about the axis through
    [point]; the matrix does not depend on the position the transform had. *)
Lemma matrix_rotate (angle : R) (axis point : vec3) (rad : bool) (t : LinearTransform) :
  post_mode t -> axis <> Vec.zero ->
  let h := (if rad then angle else deg2rad angle) / 2 in
  let u := sdiv axis (norm axis) in
  matrix (rotate angle axis point rad t) =
    Multiply4x4
      (about_point (quaternion_matrix (cos h) (vx u * sin h) (vy u * sin h) (vz u * sin h)) point)
      (matrix t).
Proof.
  intros Hpost Hax h u. unfold matrix, rotate. cbn [T with_T].
  fold u.
  rewrite GetMatrix_Translate, PreMultiplyFlag_RotateWXYZ, Hpost.
  unfold GetPosition.
  rewrite GetMatrix_RotateWXYZ by (apply normalised_nonzero; exact Hax).
  rewrite Hpost.
  rewrite rotation_elements_unit by (apply normalised_unit; exact Hax).
  rewrite half_of_engine_angle. fold h.
  pose proof (rotate_correction (cos h) (sin h) u point (GetMatrix (T t))) as Hc.
  unfold rotate_R. fold h.
  destruct (muls (neg u) (sin h)) as [[b c] d]. cbv zeta in Hc |- *.
  rewrite Hc.
  rewrite about_point_quaternion. cbv zeta.
  now rewrite Multiply4x4_assoc.
Qed.

Lemma post_mode_rotate (angle : R) (axis point : vec3) (rad : bool) (t : LinearTransform) :
  post_mode t -> post_mode (rotate angle axis point rad t).
Proof.
  unfold post_mode, rotate. cbn [T with_T]. intros Hp.
  now rewrite PreMultiplyFlag_Translate, PreMultiplyFlag_RotateWXYZ.
Qed.

Section Rotate.

Context `{Decomposition}.

(** C2. [rotate(angle, axis, point)] followed by [rotate(-angle, axis, point)]
    brings the matrix of the transform back, and with it the position and
    the orientation, for every angle (in degrees or radians), every
    nonzero axis and every point. *)
Theorem rotate_then_rotate_back
  (t : LinearTransform) (angle : R) (axis point : vec3) (rad : bool) :
  post_mode t -> axis <> Vec.zero ->
  let t' := rotate (- angle) axis point rad (rotate angle axis point rad t) in
  position t' = position t /\ orientation t' = orientation t /\ matrix t' = matrix t.
Proof.
  intros Hpost Hax t'.
  assert (E : matrix t' = matrix t).
  { subst t'.
    rewrite matrix_rotate by (try apply post_mode_rotate; assumption).
    rewrite matrix_rotate by assumption.
    cbv zeta.
    set (h := (if rad then angle else deg2rad angle) / 2).
    assert (Hh : (if rad then - angle else deg2rad (- angle)) / 2 = - h).
    { subst h. unfold deg2rad. destruct rad; lra. }
    rewrite Hh, cos_neg, sin_neg.
    set (u := sdiv axis (norm axis)).
    replace (vx u * - sin h) with (- (vx u * sin h)) by ring.
    replace (vy u * - sin h) with (- (vy u * sin h)) by ring.
    replace (vz u * - sin h) with (- (vz u * sin h)) by ring.
    rewrite <- Multiply4x4_assoc, quaternion_inverse.
    - apply Multiply4x4_Identity_l.
    - pose proof (normalised_unit axis Hax) as Hu. cbv zeta in Hu. fold u in Hu.
      pose proof (sin2_cos2 h) as Hsc. unfold Rsqr in Hsc.
      replace (cos h * cos h + vx u * sin h * (vx u * sin h)
               + vy u * sin h * (vy u * sin h) + vz u * sin h * (vz u * sin h))
        with (cos h * cos h + (vx u * vx u + vy u * vy u + vz u * vz u) * (sin h * sin h))
        by ring.
      rewrite Hu. lra. }
  unfold position, orientation, GetPosition, GetOrientation.
  unfold matrix in E. rewrite E. auto.
Qed.

End Rotate.

Lemma rotate_then_rotate_back_witness :
  let t' := rotate (Ropp 90) (0, 0, 1) (1, 0, 0) false
                   (rotate 90 (0, 0, 1) (1, 0, 0) false fresh) in
  position t' = position fresh /\
  @orientation diagonal_decomposition t' = @orientation diagonal_decomposition fresh /\
  matrix t' = matrix fresh.
Proof.
  apply (@rotate_then_rotate_back diagonal_decomposition fresh 90 (0, 0, 1) (1, 0, 0) false).
  - reflexivity.
  - unfold Vec.zero. intros E. injection E as E. lra.
Defined.

(** * Inversion *)

Lemma nonsingular_factors (a b : vtkMatrix4x4) :
  nonsingular (Multiply4x4 a b) -> nonsingular a /\ nonsingular b.
Proof.
  unfold nonsingular. rewrite Determinant_Multiply4x4. intros Hab.
  split; intros Hz; apply Hab; rewrite Hz; ring.
Qed.

(** A composite matrix with nonzero determinant is made of such pieces. *)
Lemma nonsingular_pieces (l : list vtkMatrix4x4) :
  nonsingular (compose l) -> Forall nonsingular l.
Proof.
  induction l as [|p l IH]; intros Hl; constructor.
  - apply (nonsingular_factors _ _ Hl).
  - apply IH. apply (nonsingular_factors _ _ Hl).
Qed.

Lemma TransformList_Inverse (t : vtkTransform) :
  TransformList (Inverse t) = rev (map Invert (TransformList t)).
Proof.
  unfold TransformList, Inverse. cbn [PreMatrix Middle PostMatrix].
  rewrite !map_app, !rev_app_distr, <- app_assoc.
  destruct (PreMatrix t), (PostMatrix t); reflexivity.
Qed.

Lemma compose_inverse_left (l : list vtkMatrix4x4) :
  Forall nonsingular l ->
  Multiply4x4 (compose (rev (map Invert l))) (compose l) = Identity.
Proof.
  induction 1 as [|p l Hp Hl IH]; cbn [map rev compose].
  - apply Multiply4x4_Identity_l.
  - rewrite compose_app, compose_single.
    rewrite Multiply4x4_assoc, <- (Multiply4x4_assoc _ (compose l) p), IH.
    rewrite Multiply4x4_Identity_l. apply Invert_left, Hp.
Qed.

Lemma compose_inverse_right (l : list vtkMatrix4x4) :
  Forall nonsingular l ->
  Multiply4x4 (compose l) (compose (rev (map Invert l))) = Identity.
Proof.
  induction 1 as [|p l Hp Hl IH]; cbn [map rev compose].
  - apply Multiply4x4_Identity_l.
  - rewrite compose_app, compose_single.
    rewrite Multiply4x4_assoc, <- (Multiply4x4_assoc p (Invert p)), Invert_right by exact Hp.
    now rewrite Multiply4x4_Identity_l.
Qed.

Lemma map_Invert_Invert (l : list vtkMatrix4x4) :
  Forall nonsingular l -> map Invert (map Invert l) = l.
Proof.
  induction 1 as [|p l Hp Hl IH]; cbn [map]; [reflexivity|].
  now rewrite IH, Invert_involutive.
Qed.

Lemma Inverse_involutive (t : vtkTransform) :
  Forall nonsingular (TransformList t) -> Inverse (Inverse t) = t.
Proof.
  destruct t as [pm iv pre mid post].
  unfold TransformList, Inverse. cbn [PreMultiplyFlag InverseFlag PreMatrix Middle PostMatrix].
  intros Hl. apply Forall_app in Hl as [Hpre Hl]. apply Forall_app in Hl as [Hmid Hpost].
  rewrite negb_involutive, map_rev, rev_involutive, map_Invert_Invert by exact Hmid.
  f_equal.
  - destruct pre as [p|]; [|reflexivity]. cbn. f_equal.
    apply Invert_involutive. now inversion Hpre.
  - destruct post as [p|]; [|reflexivity]. cbn. f_equal.
    apply Invert_involutive. now inversion Hpost.
Qed.

Lemma init_other (e : vtkTransform) :
  __init__ (ArgOther e) = Some (mkLT (PostMultiply e) false).
Proof. reflexivity. Qed.

Lemma GetMatrix_PostMultiply (e : vtkTransform) : GetMatrix (PostMultiply e) = GetMatrix e.
Proof. reflexivity. Qed.

Lemma GetMatrix_PreMultiply (e : vtkTransform) : GetMatrix (PreMultiply e) = GetMatrix e.
Proof. reflexivity. Qed.

Section Inversion.

Context `{Decomposition}.

(** C3. For a transform whose matrix has a nonzero determinant: [invert()]
    twice gives the matrix back; [compute_inverse()] returns a transform,
    leaves [self] as it was, and the returned matrix multiplied with the
    matrix of [self], on either side, is the identity. *)
Theorem invert_twice_compute_inverse (t : LinearTransform) :
  nonsingular (matrix t) ->
  matrix (invert (invert t)) = matrix t /\
  call m_compute_inverse t = Some t /\
  exists t', compute_inverse t = Some t' /\
             Multiply4x4 (matrix t') (matrix t) = Identity /\
             Multiply4x4 (matrix t) (matrix t') = Identity.
Proof.
  intros Hns. unfold matrix in Hns.
  pose proof (nonsingular_pieces _ Hns) as Hp.
  split; [|split].
  - unfold matrix, invert. cbn [T]. now rewrite Inverse_involutive.
  - reflexivity.
  - unfold compute_inverse. rewrite init_other. eexists. split; [reflexivity|].
    unfold matrix. cbn [T]. rewrite GetMatrix_PostMultiply.
    unfold GetInverse, GetMatrix. rewrite TransformList_Inverse.
    split; [apply compose_inverse_left | apply compose_inverse_right]; exact Hp.
Qed.

End Inversion.

Lemma invert_twice_compute_inverse_witness :
  let t := translate (1, 2, 3) fresh in
  nonsingular (matrix t) /\
  matrix (invert (invert t)) = matrix t /\
  exists t', compute_inverse t = Some t' /\
             Multiply4x4 (matrix t') (matrix t) = Identity /\
             Multiply4x4 (matrix t) (matrix t') = Identity.
Proof.
  intros t.
  assert (Hns : nonsingular (matrix t)).
  { unfold nonsingular, matrix, t, translate. cbn [T with_T].
    rewrite GetMatrix_Translate. change (GetMatrix (T fresh)) with Identity.
    cbn [PreMultiplyFlag T fresh PostMultiply]. rewrite Multiply4x4_Identity_r.
    cbn [vx vy vz fst snd]. mat_unfold. lra. }
  split; [exact Hns|].
  destruct (@invert_twice_compute_inverse diagonal_decomposition t Hns) as [H2 [_ Hinv]].
  split; [exact H2 | exact Hinv].
Defined.

(** * Construction *)

Lemma init_none : __init__ ArgNone = Some fresh.
Proof. reflexivity. Qed.

(** [clone()] raises for every transform: the engine call it starts with
    does not exist. *)
Lemma clone_raises (t : LinearTransform) : clone t = None.
Proof. reflexivity. Qed.

Lemma post_mode_init (arg : init_arg) (t : LinearTransform) :
  __init__ arg = Some t -> post_mode t.
Proof.
  unfold __init__, post_mode. intros E.
  destruct arg as [ | M | M | S | e ];
    try (injection E as <-; reflexivity).
  destruct (copy_elements S Identity); [injection E as <-; reflexivity | discriminate].
Qed.

Lemma GetMatrix_SetMatrix (m : vtkMatrix4x4) (e : vtkTransform) :
  GetMatrix (SetMatrix m e) = m.
Proof.
  unfold SetMatrix. rewrite GetMatrix_ConcatenateElements.
  change (GetMatrix (Identity_ e)) with Identity.
  rewrite Multiply4x4_Identity_l, Multiply4x4_Identity_r.
  now destruct (PreMultiplyFlag (Identity_ e)).
Qed.

(** * The post-multiply invariant *)

Lemma post_mode_scale (s : scalar_or_seq) (origin : origin_arg) (t : LinearTransform) :
  post_mode t -> post_mode (scale s origin t).
Proof.
  unfold post_mode, scale. intros Hp. destruct (broadcast s) as [[s0 s1] s2].
  destruct origin; try destruct (Rlt_dec 0 (norm (GetPosition (T t)))); cbn [T with_T];
    now rewrite ?PreMultiplyFlag_Translate, ?PreMultiplyFlag_Scale, ?PreMultiplyFlag_Translate.
Qed.

Lemma post_mode__rotatexyz (a : axe) (angle : R) (rad : bool) (around : option vec3)
      (t : LinearTransform) :
  post_mode t -> post_mode (_rotatexyz a angle rad around t).
Proof.
  unfold post_mode, _rotatexyz, RotateX, RotateY, RotateZ. intros Hp.
  destruct around, a; cbn [T with_T];
    now rewrite ?PreMultiplyFlag_Translate, ?PreMultiplyFlag_RotateWXYZ, ?PreMultiplyFlag_Translate.
Qed.

Section Methods.

Context `{Decomposition}.

(** Post-multiply mode is an invariant of the facade: every method that
    returns leaves the transform in it. *)
Lemma post_mode_call (m : method) (t t' : LinearTransform) :
  post_mode t -> call m t = Some t' -> post_mode t'.
Proof.
  intros Hp E.
  destruct m; cbn [call] in E;
    try (rewrite clone_raises in E; discriminate);
    try (injection E as <-;
         first [ exact Hp
               | reflexivity
               | apply post_mode_scale; exact Hp
               | apply post_mode_rotate; exact Hp
               | apply post_mode__rotatexyz; exact Hp
               | unfold post_mode, translate, set_position; cbn [T with_T];
                 rewrite PreMultiplyFlag_Translate; exact Hp ]).
  - unfold get_concatenated_transform in E.
    destruct (GetConcatenatedTransform i (T t)); [|discriminate].
    cbn in E. now injection E as <-.
  - unfold set_scale in E. cbv zeta in E.
    repeat match type of E with
           | match ?o with _ => _ end = _ => destruct o; try discriminate
           end;
      injection E as <-; unfold post_mode; cbn [T with_T];
      rewrite PreMultiplyFlag_Scale; exact Hp.
  - unfold set_matrix in E.
    destruct (copy_elements M Identity); [|discriminate]. injection E as <-.
    unfold post_mode, SetMatrix. cbn [T with_T].
    rewrite PreMultiplyFlag_ConcatenateElements. exact Hp.
Qed.

End Methods.

(** * Concatenation *)

(** C4. [concatenate(other, pre_multiply=True)] multiplies [other] in on the
    right (pre-multiply order) for that call only: afterwards the transform
    is in post-multiply mode again, and a following [concatenate] without the
    flag multiplies its argument in on the left (post-multiply order). *)
Theorem concatenate_pre_multiply_once (t o1 o2 : LinearTransform) :
  let t1 := concatenate o1 true t in
  matrix t1 = Multiply4x4 (matrix t) (matrix o1) /\
  PreMultiplyFlag (T t1) = false /\
  matrix (concatenate o2 false t1) = Multiply4x4 (matrix o2) (matrix t1) /\
  PreMultiplyFlag (T (concatenate o2 false t1)) = false.
Proof.
  cbv zeta. unfold matrix, concatenate. cbn [T with_T].
  rewrite !GetMatrix_PostMultiply, !GetMatrix_Concatenate.
  cbn [PostMultiply PreMultiply PreMultiplyFlag].
  rewrite GetMatrix_PostMultiply, GetMatrix_Concatenate, GetMatrix_PreMultiply.
  cbn [PreMultiply PreMultiplyFlag]. auto.
Qed.

(** * apply_to *)

Lemma allclose_zero (l : list R) :
  allclose l 0 = true <-> Forall (fun v => Rabs v <= atol) l.
Proof.
  unfold allclose. rewrite forallb_forall, Forall_forall.
  split; intros Hl v Hv; specialize (Hl v Hv).
  - destruct (Rle_dec (Rabs (v - 0)) (atol + rtol * Rabs 0)) as [Hle|]; [|discriminate].
    rewrite Rabs_R0, Rmult_0_r, Rplus_0_r, Rminus_0_r in Hle. exact Hle.
  - destruct (Rle_dec (Rabs (v - 0)) (atol + rtol * Rabs 0)) as [|Hn]; [reflexivity|].
    exfalso. apply Hn. now rewrite Rabs_R0, Rmult_0_r, Rplus_0_r, Rminus_0_r.
Qed.

(** C5. [apply_to] on a geometric object records the transform on it; when
    every entry of the matrix is within the tolerance of the identity the
    points and the three locators stay as they are, otherwise every point
    is mapped through the transform, in the same object, and the three
    locators are set to [None]. *)
Theorem apply_to_object (t : LinearTransform) (obj : Mesh) :
  (allclose (minus_eye (matrix t)) 0 = true <-> near_identity (matrix t)) /\
  exists obj',
    apply_to t (Object obj) = Updated obj' /\
    transform obj' = Some t /\
    if allclose (minus_eye (matrix t)) 0 then
      points obj' = points obj /\
      point_locator obj' = point_locator obj /\
      cell_locator obj' = cell_locator obj /\
      line_locator obj' = line_locator obj
    else
      points obj' = map (fun p => LinearTransformPoint (matrix t) p) (points obj) /\
      point_locator obj' = None /\
      cell_locator obj' = None /\
      line_locator obj' = None.
Proof.
  split; [apply allclose_zero|].
  unfold apply_to, matrix.
  destruct (allclose (minus_eye (GetMatrix (T t))) 0); eexists; split; try reflexivity;
    cbn; auto.
Qed.

(** * Scaling *)

Lemma position_fresh : GetPosition (T fresh) = Vec.zero.
Proof. reflexivity. Qed.

Lemma scale_origin_seq (s : scalar_or_seq) (q : vec3) (t : LinearTransform) :
  scale s (OriginSeq q) t =
    let p := GetPosition (T t) in
    with_T t (Translate p (Scale (vx (broadcast s)) (vy (broadcast s)) (vz (broadcast s))
                                 (Translate (neg p) (T t)))).
Proof. unfold scale. now destruct (broadcast s) as [[s0 s1] s2]. Qed.

(** C1. With a sequence as [origin], [scale] never reads the sequence: it
    scales about the position the transform has.  On a fresh transform
    [scale(2, origin=[1,0,0])] therefore doubles about (0,0,0), and
    [apply_to] sends the point (2,0,0) to (4,0,0); translating by minus
    the pivot, scaling and translating back would send it to (3,0,0). *)
Theorem scale_explicit_origin_not_used :
  (forall s q q' t, scale s (OriginSeq q) t = scale s (OriginSeq q') t) /\
  apply_to (scale (Scalar 2) (OriginSeq (1, 0, 0)) fresh) (Sequence (2, 0, 0))
    = Returned (4, 0, 0) /\
  (let q := (1, 0, 0) in
   TransformFloatPoint (Translate q (Scale 2 2 2 (Translate (neg q) (T fresh)))) (2, 0, 0)
     = (3, 0, 0)) /\
  Returned (4, 0, 0) <> Returned (3, 0, 0).
Proof.
  split; [|split; [|split]].
  - intros. now rewrite !scale_origin_seq.
  - rewrite scale_origin_seq. cbv zeta. unfold apply_to, TransformFloatPoint. cbn [T with_T].
    rewrite GetMatrix_Translate, PreMultiplyFlag_Scale, PreMultiplyFlag_Translate.
    rewrite GetMatrix_Scale, PreMultiplyFlag_Translate, GetMatrix_Translate.
    rewrite position_fresh. change (GetMatrix (T fresh)) with Identity.
    cbn [PreMultiplyFlag T fresh PostMultiply broadcast]. unfold neg, Vec.zero.
    cbn [vx vy vz fst snd]. rewrite Ropp_0.
    change (translation 0 0 0) with Identity.
    rewrite Multiply4x4_Identity_l, !Multiply4x4_Identity_r.
    unfold LinearTransformPoint, scaling. cbn [e00 e01 e02 e03 e10 e11 e12 e13 e20 e21 e22 e23].
    f_equal. f_equal; [f_equal|]; ring.
  - cbv zeta. unfold TransformFloatPoint.
    rewrite GetMatrix_Translate, PreMultiplyFlag_Scale, PreMultiplyFlag_Translate.
    rewrite GetMatrix_Scale, PreMultiplyFlag_Translate, GetMatrix_Translate.
    change (GetMatrix (T fresh)) with Identity.
    cbn [PreMultiplyFlag T fresh PostMultiply]. unfold neg. cbn [vx vy vz fst snd].
    rewrite Multiply4x4_Identity_r.
    replace (Multiply4x4 (translation 1 0 0) (Multiply4x4 (scaling 2 2 2) (translation (- (1)) (- 0) (- 0))))
      with (mk 2 0 0 (- (1))  0 2 0 0  0 0 2 0  0 0 0 1) by (symmetry; mat_ring).
    unfold LinearTransformPoint. cbn [e00 e01 e02 e03 e10 e11 e12 e13 e20 e21 e22 e23].
    f_equal; [f_equal|]; ring.
  - intros E. injection E as E. lra.
Qed.

(** * Axis rotations *)

Lemma half_sqrt2 : 1 / sqrt 2 * (1 / sqrt 2) = 1 / 2.
Proof.
  pose proof sqrt2_neq_0 as Hn. pose proof (sqrt_sqrt 2) as Hs.
  replace (1 / sqrt 2 * (1 / sqrt 2)) with (1 / (sqrt 2 * sqrt 2)) by (field; exact Hn).
  rewrite Hs by lra. reflexivity.
Qed.

(** C8. On a fresh transform [rotate_x(90)] followed by [apply_to] on the
    point (0,1,0) gives (0,0,1). *)
Theorem rotate_x_90 :
  apply_to (rotate_x 90 false None fresh) (Sequence (0, 1, 0)) = Returned (0, 0, 1).
Proof.
  unfold apply_to, rotate_x, _rotatexyz, RotateX, TransformFloatPoint. cbn [T with_T].
  rewrite GetMatrix_RotateWXYZ by (unfold Vec.zero; intros E; injection E as E; lra).
  change (GetMatrix (T fresh)) with Identity.
  cbn [PreMultiplyFlag T fresh PostMultiply]. rewrite Multiply4x4_Identity_r.
  unfold rotation_elements, RadiansFromDegrees.
  replace (0.5 * (90 * (PI / 180))) with (PI / 4) by lra.
  replace (1 * 1 + 0 * 0 + 0 * 0) with 1 by ring.
  rewrite cos_PI4, sin_PI4, sqrt_1.
  pose proof half_sqrt2 as Hh. set (c := 1 / sqrt 2) in *.
  unfold LinearTransformPoint. mat_unfold.
  f_equal. f_equal; [f_equal|]; nra.
Qed.

(** * Copying a nested sequence *)

Ltac destruct_rows :=
  repeat match goal with
         | H : Forall _ (_ :: _) |- _ => inversion H; clear H; subst
         | H : Forall _ [] |- _ => clear H
         end.

Ltac destruct_row r :=
  destruct r as [|? [|? [|? [|? [|? ?]]]]]; try discriminate.

Lemma copy_elements_square (S : list (list R)) (n : nat) :
  length S = n -> (n <= 4)%nat -> Forall (fun row => length row = n) S ->
  exists M, copy_elements S Identity = Some M /\
    forall i j, (i < 4)%nat -> (j < 4)%nat ->
      GetElement M i j =
        if (i <? n)%nat && (j <? n)%nat then entry S i j else GetElement Identity i j.
Proof.
  intros Hlen Hn Hrows.
  destruct S as [|r0 [|r1 [|r2 [|r3 [|r4 S]]]]]; cbn [length] in Hlen; subst n;
    [ | | | | | exfalso; cbn [length] in Hn; lia ]; destruct_rows;
    repeat match goal with
           | H : length ?r = _ |- _ => destruct_row r; clear H
           end;
    (eexists; split; [reflexivity|]);
    intros i j Hi Hj;
    destruct i as [|[|[|[|i]]]]; try lia;
    destruct j as [|[|[|[|j]]]]; try lia; reflexivity.
Qed.

(** C6. Without an argument the constructor gives the identity; from a
    square nested sequence of size [n <= 4] it copies every [T[i][j]] into
    position [(i, j)] of a fresh matrix and leaves the other positions as in
    the identity (for a 3x3 input: the fourth row and column); and whatever
    the argument, the transform ends in post-multiply mode. *)
Theorem init_copies_sequence :
  (exists t, __init__ ArgNone = Some t /\ matrix t = Identity) /\
  (forall (S : list (list R)) (n : nat),
      length S = n -> (n <= 4)%nat -> Forall (fun row => length row = n) S ->
      exists t, __init__ (ArgSequence S) = Some t /\
        forall i j, (i < 4)%nat -> (j < 4)%nat ->
          GetElement (matrix t) i j =
            if (i <? n)%nat && (j <? n)%nat then entry S i j else GetElement Identity i j) /\
  (forall arg t, __init__ arg = Some t -> PreMultiplyFlag (T t) = false).
Proof.
  split; [|split].
  - exists fresh. split; reflexivity.
  - intros S n Hlen Hn Hrows.
    destruct (copy_elements_square S n Hlen Hn Hrows) as [M [HM Hget]].
    unfold __init__. rewrite HM. eexists. split; [reflexivity|].
    unfold matrix. cbn [T]. rewrite GetMatrix_PostMultiply, GetMatrix_SetMatrix. exact Hget.
  - exact post_mode_init.
Qed.

Lemma init_copies_sequence_witness :
  exists t, __init__ (ArgSequence [[1; 2; 3]; [4; 5; 6]; [7; 8; 9]]) = Some t /\
    GetElement (matrix t) 1 2 = Some 6 /\
    GetElement (matrix t) 1 3 = Some 0 /\
    GetElement (matrix t) 3 3 = Some 1 /\
    PreMultiplyFlag (T t) = false.
Proof.
  destruct init_copies_sequence as [_ [Hseq Hpost]].
  destruct (Hseq [[1; 2; 3]; [4; 5; 6]; [7; 8; 9]] 3%nat) as [t [Ht Hget]];
    [reflexivity | lia | repeat constructor |].
  exists t. split; [exact Ht|].
  split; [exact (Hget 1%nat 2%nat ltac:(lia) ltac:(lia))|].
  split; [exact (Hget 1%nat 3%nat ltac:(lia) ltac:(lia))|].
  split; [exact (Hget 3%nat 3%nat ltac:(lia) ltac:(lia))|].
  exact (Hpost _ _ Ht).
Defined.

(** C9. Assigning a 3x3 array to [matrix] puts its nine numbers in the
    top-left block of a fresh matrix and installs it: whatever the
    transform was, its fourth column and fourth row are then those of the
    identity, so the position is (0,0,0). *)
Theorem set_matrix_3x3 (t : LinearTransform) (a b c d e f g h i : R) :
  exists t', set_matrix [[a; b; c]; [d; e; f]; [g; h; i]] t = Some t' /\
    matrix t' = mk a b c 0
                   d e f 0
                   g h i 0
                   0 0 0 1 /\
    position t' = (0, 0, 0).
Proof.
  eexists. split; [reflexivity|].
  unfold matrix, position, GetPosition. cbn [T with_T].
  rewrite GetMatrix_SetMatrix. split; reflexivity.
Qed.



Section SetScale.

Context `{Decomposition}.

(** C7. [set_scale] never fails: for each axis the factor is the wanted
    scale divided by the current one, or 1 when the current one is zero
    (no division takes place then), and the transform is scaled by these
    factors. *)
Theorem set_scale_correction (s : scalar_or_seq) (t : LinearTransform) :
  let want := broadcast s in
  let b := get_scale t in
  let f0 := if Reqb (vx b) 0 then 1 else vx want / vx b in
  let f1 := if Reqb (vy b) 0 then 1 else vy want / vy b in
  let f2 := if Reqb (vz b) 0 then 1 else vz want / vz b in
  set_scale s t = Some (with_T t (Scale f0 f1 f2 (T t))) /\
  matrix (with_T t (Scale f0 f1 f2 (T t))) =
    if PreMultiplyFlag (T t) then Multiply4x4 (matrix t) (scaling f0 f1 f2)
    else Multiply4x4 (scaling f0 f1 f2) (matrix t).
Proof.
  cbv zeta. split.
  - unfold set_scale, get_scale, truthy, truediv.
    destruct (Reqb (vx (GetScale (T t))) 0), (Reqb (vy (GetScale (T t))) 0),
      (Reqb (vz (GetScale (T t))) 0); reflexivity.
  - unfold matrix. cbn [T with_T]. apply GetMatrix_Scale.
Qed.

End SetScale.

(** * The attribute inverse_flag *)

Section InverseFlag.

Context `{Decomposition}.


End InverseFlag.


(** * Further properties of the facade *)

Lemma translation_mul (a b c a' b' c' : R) :
  Multiply4x4 (translation a b c) (translation a' b' c') =
  translation (a + a') (b + b') (c + c').
Proof. mat_ring. Qed.

Lemma translation_add (p q : vec3) :
  Multiply4x4 (translation (vx q) (vy q) (vz q)) (translation (vx p) (vy p) (vz p)) =
  translation (vx (add p q)) (vy (add p q)) (vz (add p q)).
Proof.
  destruct p as [[p0 p1] p2], q as [[q0 q1] q2]. unfold add. cbn [vx vy vz fst snd].
  rewrite translation_mul. f_equal; ring.
Qed.

Lemma image_eq (t : LinearTransform) (p : vec3) :
  image t p = LinearTransformPoint (matrix t) p.
Proof. reflexivity. Qed.

(** X1. Two consecutive translations add up, and translating back by the
    opposite vector restores the matrix, in either multiplication mode. *)
Theorem translate_adds (p q : vec3) (t : LinearTransform) :
  matrix (translate q (translate p t)) = matrix (translate (add p q) t) /\
  matrix (translate (neg p) (translate p t)) = matrix t.
Proof.
  unfold matrix, translate. cbn [T with_T].
  rewrite !GetMatrix_Translate, !PreMultiplyFlag_Translate.
  split.
  - destruct (PreMultiplyFlag (T t)).
    + rewrite Multiply4x4_assoc. f_equal.
      destruct p as [[p0 p1] p2], q as [[q0 q1] q2]. unfold add. cbn [vx vy vz fst snd].
      apply translation_mul.
    + rewrite <- Multiply4x4_assoc. f_equal. apply translation_add.
  - destruct (PreMultiplyFlag (T t)).
    + rewrite Multiply4x4_assoc.
      replace (Multiply4x4 (translation (vx p) (vy p) (vz p))
                 (translation (vx (neg p)) (vy (neg p)) (vz (neg p)))) with Identity.
      * apply Multiply4x4_Identity_r.
      * destruct p as [[p0 p1] p2]. unfold neg. cbn [vx vy vz fst snd]. symmetry. mat_ring.
    + rewrite <- Multiply4x4_assoc, translation_cancel. apply Multiply4x4_Identity_l.
Qed.

Lemma LinearTransformPoint_mul (a b : vtkMatrix4x4) (p : vec3) :
  affine b ->
  LinearTransformPoint (Multiply4x4 a b) p = LinearTransformPoint a (LinearTransformPoint b p).
Proof.
  destruct a, b, p as [[p0 p1] p2]. unfold affine. cbn [e30 e31 e32 e33].
  intros [-> [-> [-> ->]]].
  unfold LinearTransformPoint, Multiply4x4. cbn.
  f_equal; [f_equal|]; ring.
Qed.

Lemma LinearTransformPoint_translation (d p : vec3) :
  LinearTransformPoint (translation (vx d) (vy d) (vz d)) p = add p d.
Proof.
  destruct d as [[d0 d1] d2], p as [[p0 p1] p2].
  unfold LinearTransformPoint, translation, add. cbn. f_equal; [f_equal|]; ring.
Qed.

Lemma LinearTransformPoint_scaling (s p : vec3) :
  LinearTransformPoint (scaling (vx s) (vy s) (vz s)) p = mulv s p.
Proof.
  destruct s as [[s0 s1] s2], p as [[p0 p1] p2].
  unfold LinearTransformPoint, scaling, mulv. cbn. f_equal; [f_equal|]; ring.
Qed.

(** X2. On an affine transform [translate(p)] moves the image of every point
    by [p]. *)
Theorem translate_moves_points (p x : vec3) (t : LinearTransform) :
  post_mode t -> affine (matrix t) ->
  image (translate p t) x = add (image t x) p.
Proof.
  intros Hp Ha. rewrite !image_eq. unfold matrix, translate in *. cbn [T with_T].
  rewrite GetMatrix_Translate, Hp, LinearTransformPoint_mul by exact Ha.
  apply LinearTransformPoint_translation.
Qed.

Lemma affine_fresh : affine (matrix fresh).
Proof. repeat split. Qed.

Lemma translate_moves_points_witness :
  image (translate (1, 2, 3) fresh) (4, 5, 6) = add (image fresh (4, 5, 6)) (1, 2, 3).
Proof.
  apply translate_moves_points; [reflexivity | exact affine_fresh].
Defined.

(** X3. [scale(s, origin=False)] multiplies the image of every point
    componentwise by the factors. *)
Theorem scale_world_origin_points (s : scalar_or_seq) (x : vec3) (t : LinearTransform) :
  post_mode t ->
  image (scale s OriginOther t) x = mulv (broadcast s) (image t x).
Proof.
  intros Hp. rewrite !image_eq. unfold matrix, scale.
  destruct (broadcast s) as [[s0 s1] s2] eqn:Es. cbn [T with_T].
  rewrite GetMatrix_Scale, Hp.
  generalize (GetMatrix (T t)) as M. intros M. destruct M, x as [[x0 x1] x2].
  unfold LinearTransformPoint, mulv, Multiply4x4, scaling. cbn.
  f_equal; [f_equal|]; ring.
Qed.

Lemma scale_world_origin_points_witness :
  image (scale (Scalar 2) OriginOther fresh) (1, 2, 3)
  = mulv (broadcast (Scalar 2)) (image fresh (1, 2, 3)).
Proof. apply scale_world_origin_points. reflexivity. Defined.

Lemma GetPosition_Translate (d : vec3) (e : vtkTransform) :
  PreMultiplyFlag e = false ->
  GetPosition (Translate d e) =
    (e03 (GetMatrix e) + vx d * e33 (GetMatrix e),
     e13 (GetMatrix e) + vy d * e33 (GetMatrix e),
     e23 (GetMatrix e) + vz d * e33 (GetMatrix e)).
Proof.
  intros Hp. unfold GetPosition. rewrite GetMatrix_Translate, Hp.
  generalize (GetMatrix e) as M. intros M. destruct M, d as [[d0 d1] d2].
  unfold Multiply4x4, translation. cbn. f_equal; [f_equal|]; ring.
Qed.

(** X4. [set_position(p)] puts the position at [p] (with z = 0 for a point
    given by two coordinates) whenever the bottom-right entry of the matrix
    is 1; setting the position a transform already has changes nothing. *)
Theorem set_position_sets (p : point_arg) (t : LinearTransform) :
  post_mode t -> e33 (matrix t) = 1 ->
  position (set_position p t) = match p with P2 p0 p1 => (p0, p1, 0) | P3 p => p end /\
  set_position (P3 (position t)) t = t.
Proof.
  intros Hp H33. unfold matrix in H33. split.
  - unfold position, set_position. cbn [T with_T].
    rewrite GetPosition_Translate by exact Hp. rewrite H33.
    unfold GetPosition, sub. cbn [vx vy vz fst snd].
    destruct p as [p0 p1 | [[p0 p1] p2]]; cbn [vx vy vz fst snd];
      (f_equal; [f_equal|]; ring).
  - unfold set_position, position, sub, Translate.
    destruct (GetPosition (T t)) as [[q0 q1] q2]. cbn [vx vy vz fst snd].
    replace (q0 - q0) with 0 by ring. replace (q1 - q1) with 0 by ring.
    replace (q2 - q2) with 0 by ring.
    unfold Reqb. destruct (Req_dec_T 0 0) as [_|N]; [|now elim N].
    cbn. now destruct t.
Qed.

Lemma set_position_sets_witness :
  position (set_position (P2 4 5) (translate (1, 2, 3) fresh)) = (4, 5, 0).
Proof.
  apply (set_position_sets (P2 4 5) (translate (1, 2, 3) fresh)).
  - unfold post_mode, translate. cbn [T with_T]. now rewrite PreMultiplyFlag_Translate.
  - unfold matrix, translate. cbn [T with_T]. rewrite GetMatrix_Translate.
    change (GetMatrix (T fresh)) with Identity. cbn [PreMultiplyFlag T fresh PostMultiply].
    rewrite Multiply4x4_Identity_r. reflexivity.
Defined.

Lemma column3_scaling (a b c : R) (m : vtkMatrix4x4) :
  let sm := Multiply4x4 (scaling a b c) m in
  e03 sm = a * e03 m /\ e13 sm = b * e13 m /\ e23 sm = c * e23 m /\ e33 sm = e33 m.
Proof. destruct m. cbn. repeat split; ring. Qed.

Lemma column3_translation (a b c : R) (m : vtkMatrix4x4) :
  let tm := Multiply4x4 (translation a b c) m in
  e03 tm = e03 m + a * e33 m /\ e13 tm = e13 m + b * e33 m /\
  e23 tm = e23 m + c * e33 m /\ e33 tm = e33 m.
Proof. destruct m. cbn. repeat split; ring. Qed.

Lemma norm_zero (v : vec3) : ~ 0 < norm v -> v = Vec.zero.
Proof.
  intros Hn. pose proof (norm_sqr v) as Hs.
  assert (H0 : norm v = 0).
  { unfold norm in *. pose proof (sqrt_pos (vx v * vx v + vy v * vy v + vz v * vz v)). lra. }
  rewrite H0 in Hs. destruct v as [[a b] c]. cbn [vx vy vz fst snd] in Hs.
  assert (a = 0) by nra. assert (b = 0) by nra. assert (c = 0) by nra.
  subst. reflexivity.
Qed.

Lemma position_about_own_position (s0 s1 s2 : R) (e : vtkTransform) :
  PreMultiplyFlag e = false -> e33 (GetMatrix e) = 1 ->
  let p := GetPosition e in
  GetPosition (Translate p (Scale s0 s1 s2 (Translate (neg p) e))) = p.
Proof.
  intros Hp H33 p.
  rewrite GetPosition_Translate by now rewrite PreMultiplyFlag_Scale, PreMultiplyFlag_Translate.
  rewrite GetMatrix_Scale, PreMultiplyFlag_Translate, Hp, GetMatrix_Translate, Hp.
  destruct (column3_scaling s0 s1 s2
              (Multiply4x4 (translation (vx (neg p)) (vy (neg p)) (vz (neg p))) (GetMatrix e)))
    as [E0 [E1 [E2 E3]]].
  destruct (column3_translation (vx (neg p)) (vy (neg p)) (vz (neg p)) (GetMatrix e))
    as [F0 [F1 [F2 F3]]].
  rewrite E0, E1, E2, E3, F0, F1, F2, F3, H33.
  subst p. unfold GetPosition, neg. cbn [vx vy vz fst snd].
  f_equal; [f_equal|]; ring.
Qed.

(** X5. With [origin=True] (and equally with a sequence as [origin]) [scale]
    leaves the position of the transform where it is, provided the
    bottom-right entry of the matrix is 1; with any other [origin] the
    position is multiplied componentwise by the factors. *)
Theorem scale_position (s : scalar_or_seq) (q : vec3) (t : LinearTransform) :
  post_mode t -> e33 (matrix t) = 1 ->
  position (scale s OriginTrue t) = position t /\
  position (scale s (OriginSeq q) t) = position t /\
  position (scale s OriginOther t) = mulv (broadcast s) (position t).
Proof.
  intros Hp H33. unfold matrix in H33. unfold position, scale.
  destruct (broadcast s) as [[s0 s1] s2]. repeat split.
  - destruct (Rlt_dec 0 (norm (GetPosition (T t)))) as [Hn|Hn]; cbn [T with_T].
    + now apply position_about_own_position.
    + apply norm_zero in Hn. rewrite Hn. unfold GetPosition in *.
      rewrite GetMatrix_Scale, Hp.
      destruct (column3_scaling s0 s1 s2 (GetMatrix (T t))) as [E0 [E1 [E2 _]]].
      rewrite E0, E1, E2. unfold Vec.zero in Hn. injection Hn as -> -> ->.
      unfold Vec.zero. f_equal; [f_equal|]; ring.
  - cbn [T with_T]. now apply position_about_own_position.
  - cbn [T with_T]. unfold GetPosition. rewrite GetMatrix_Scale, Hp.
    destruct (column3_scaling s0 s1 s2 (GetMatrix (T t))) as [E0 [E1 [E2 _]]].
    rewrite E0, E1, E2. reflexivity.
Qed.

Lemma post_mode_translate (p : vec3) (t : LinearTransform) :
  post_mode t -> post_mode (translate p t).
Proof. unfold post_mode, translate. cbn [T with_T]. now rewrite PreMultiplyFlag_Translate. Qed.

Lemma matrix_translate_fresh (p : vec3) :
  matrix (translate p fresh) = translation (vx p) (vy p) (vz p).
Proof.
  unfold matrix, translate. cbn [T with_T]. rewrite GetMatrix_Translate.
  change (GetMatrix (T fresh)) with Identity. cbn [PreMultiplyFlag T fresh PostMultiply].
  apply Multiply4x4_Identity_r.
Qed.

Lemma scale_position_witness :
  let t := translate (1, 2, 3) fresh in
  position (scale (Scalar 2) OriginTrue t) = position t /\
  position (scale (Scalar 2) (OriginSeq (5, 5, 5)) t) = position t /\
  position (scale (Scalar 2) OriginOther t) = mulv (broadcast (Scalar 2)) (position t).
Proof.
  intros t. apply scale_position.
  - apply post_mode_translate. reflexivity.
  - unfold t. rewrite matrix_translate_fresh. reflexivity.
Defined.

(** ** Rotations about a pivot *)

Lemma affine_quaternion_matrix (w a b c : R) : affine (quaternion_matrix w a b c).
Proof. repeat split. Qed.

Lemma about_point_fixes (w a b c : R) (pt : vec3) :
  LinearTransformPoint (about_point (quaternion_matrix w a b c) pt) pt = pt.
Proof.
  rewrite about_point_quaternion. cbv zeta.
  rewrite LinearTransformPoint_mul by apply affine_quaternion_matrix.
  rewrite LinearTransformPoint_translation.
  destruct (LinearTransformPoint (quaternion_matrix w a b c) pt) as [[r0 r1] r2].
  destruct pt as [[p0 p1] p2]. unfold add, sub. cbn [vx vy vz fst snd].
  f_equal; [f_equal|]; ring.
Qed.

(** X6. [rotate] turns about an axis through [point]: a point whose image was
    the pivot keeps the pivot as its image. *)
Theorem rotate_fixes_pivot
  (angle : R) (axis point x : vec3) (rad : bool) (t : LinearTransform) :
  post_mode t -> axis <> Vec.zero -> affine (matrix t) ->
  image t x = point ->
  image (rotate angle axis point rad t) x = point.
Proof.
  intros Hp Hax Ha Hx. rewrite image_eq in *.
  rewrite matrix_rotate by assumption. cbv zeta.
  rewrite LinearTransformPoint_mul by exact Ha.
  rewrite Hx. apply about_point_fixes.
Qed.

Lemma rotate_fixes_pivot_witness :
  image (rotate 30 (1, 1, 0) (4, 5, 6) false fresh) (4, 5, 6) = (4, 5, 6).
Proof.
  apply rotate_fixes_pivot.
  - reflexivity.
  - unfold Vec.zero. intros E. injection E as E. lra.
  - exact affine_fresh.
  - rewrite image_eq. change (matrix fresh) with Identity.
    unfold LinearTransformPoint, Identity. cbn. f_equal; [f_equal|]; ring.
Defined.

Lemma quaternion_matrix_mul (w1 s1 w2 s2 u0 u1 u2 : R) :
  u0 * u0 + u1 * u1 + u2 * u2 = 1 ->
  Multiply4x4 (quaternion_matrix w2 (u0 * s2) (u1 * s2) (u2 * s2))
              (quaternion_matrix w1 (u0 * s1) (u1 * s1) (u2 * s1)) =
  quaternion_matrix (w1 * w2 - s1 * s2)
                    (u0 * (s1 * w2 + w1 * s2)) (u1 * (s1 * w2 + w1 * s2))
                    (u2 * (s1 * w2 + w1 * s2)).
Proof.
  intros Hu. set (n := u0 * u0 + u1 * u1 + u2 * u2) in *.
  transitivity
    (quaternion_matrix (w1 * w2 - s1 * s2 * n)
                       (u0 * (s1 * w2 + w1 * s2)) (u1 * (s1 * w2 + w1 * s2))
                       (u2 * (s1 * w2 + w1 * s2))).
  - subst n. mat_ring.
  - rewrite Hu. now rewrite Rmult_1_r.
Qed.

(** X7. Rotations about the same axis and point compose by adding the angles. *)
Theorem rotate_adds_angles
  (a b : R) (axis point : vec3) (rad : bool) (t : LinearTransform) :
  post_mode t -> axis <> Vec.zero ->
  matrix (rotate b axis point rad (rotate a axis point rad t)) =
  matrix (rotate (a + b) axis point rad t).
Proof.
  intros Hp Hax.
  rewrite !matrix_rotate by (try apply post_mode_rotate; assumption). cbv zeta.
  set (ha := (if rad then a else deg2rad a) / 2).
  set (hb := (if rad then b else deg2rad b) / 2).
  assert (Hab : (if rad then a + b else deg2rad (a + b)) / 2 = ha + hb).
  { subst ha hb. unfold deg2rad. destruct rad; lra. }
  rewrite Hab, cos_plus, sin_plus.
  set (u := sdiv axis (norm axis)).
  pose proof (normalised_unit axis Hax) as Hu. cbv zeta in Hu. fold u in Hu.
  rewrite <- Multiply4x4_assoc, about_point_mul, quaternion_matrix_mul by exact Hu.
  reflexivity.
Qed.

Lemma rotate_adds_angles_witness :
  matrix (rotate 20 (0, 0, 1) (1, 0, 0) false (rotate 10 (0, 0, 1) (1, 0, 0) false fresh)) =
  matrix (rotate (10 + 20) (0, 0, 1) (1, 0, 0) false fresh).
Proof.
  apply rotate_adds_angles.
  - reflexivity.
  - unfold Vec.zero. intros E. injection E as E. lra.
Defined.

(** X8. A full turn, 360 degrees or [2 * PI] radians, gives the matrix back. *)
Theorem rotate_full_turn (axis point : vec3) (rad : bool) (t : LinearTransform) :
  post_mode t -> axis <> Vec.zero ->
  matrix (rotate (if rad then 2 * PI else 360) axis point rad t) = matrix t.
Proof.
  intros Hp Hax. rewrite matrix_rotate by assumption. cbv zeta.
  replace ((if rad then if rad then 2 * PI else 360
            else deg2rad (if rad then 2 * PI else 360)) / 2) with PI
    by (unfold deg2rad; destruct rad; lra).
  rewrite cos_PI, sin_PI, !Rmult_0_r.
  replace (quaternion_matrix (-1) 0 0 0) with Identity by (symmetry; mat_ring).
  rewrite about_point_Identity. apply Multiply4x4_Identity_l.
Qed.

Lemma rotate_full_turn_witness :
  matrix (rotate 360 (1, 2, 3) (4, 5, 6) false fresh) = matrix fresh.
Proof.
  apply (rotate_full_turn (1, 2, 3) (4, 5, 6) false fresh).
  - reflexivity.
  - unfold Vec.zero. intros E. injection E as E. lra.
Defined.

Lemma axis_of_nonzero (a : axe) : axis_of a <> Vec.zero.
Proof. destruct a; unfold Vec.zero; intros E; injection E; intros; lra. Qed.

Lemma axis_of_normalised (a : axe) : sdiv (axis_of a) (norm (axis_of a)) = axis_of a.
Proof.
  assert (Hn : norm (axis_of a) = 1).
  { unfold norm. destruct a; cbn [axis_of vx vy vz fst snd];
      (replace (1 * 1 + 0 * 0 + 0 * 0) with 1 by ring) ||
      (replace (0 * 0 + 1 * 1 + 0 * 0) with 1 by ring) ||
      (replace (0 * 0 + 0 * 0 + 1 * 1) with 1 by ring); apply sqrt_1. }
  rewrite Hn. destruct a; unfold sdiv; cbn [axis_of vx vy vz fst snd];
    (f_equal; [f_equal|]; field).
Qed.

Lemma rot_axis (a : axe) (angle : R) (e : vtkTransform) :
  match a with axe_x => RotateX | axe_y => RotateY | axe_z => RotateZ end angle e =
  RotateWXYZ angle (vx (axis_of a)) (vy (axis_of a)) (vz (axis_of a)) e.
Proof. now destruct a. Qed.

Lemma about_point_zero (m : vtkMatrix4x4) : about_point m Vec.zero = m.
Proof.
  unfold about_point, neg, Vec.zero. cbn [vx vy vz fst snd]. rewrite Ropp_0.
  change (translation 0 0 0) with Identity.
  now rewrite Multiply4x4_Identity_l, Multiply4x4_Identity_r.
Qed.

(** X9. [rotate_x], [rotate_y] and [rotate_z] agree with [rotate] about the
    corresponding coordinate axis: through [around] when it is given,
    through the origin otherwise. *)
Theorem rotatexyz_is_rotate
  (a : axe) (angle : R) (rad : bool) (around : option vec3) (t : LinearTransform) :
  post_mode t ->
  matrix (_rotatexyz a angle rad around t) =
  matrix (rotate angle (axis_of a)
                 (match around with Some c => c | None => Vec.zero end) rad t).
Proof.
  intros Hp. rewrite matrix_rotate by (try apply axis_of_nonzero; assumption). cbv zeta.
  rewrite axis_of_normalised.
  pose proof (axis_of_nonzero a) as Hnz.
  assert (Hu : vx (axis_of a) * vx (axis_of a) + vy (axis_of a) * vy (axis_of a)
               + vz (axis_of a) * vz (axis_of a) = 1) by (destruct a; cbn; ring).
  assert (Hnz' : (vx (axis_of a), vy (axis_of a), vz (axis_of a)) <> Vec.zero)
    by (now destruct (axis_of a) as [[? ?] ?]).
  unfold matrix, _rotatexyz. cbv zeta.
  destruct around as [c|]; rewrite rot_axis; cbn [T with_T].
  - rewrite GetMatrix_Translate, PreMultiplyFlag_RotateWXYZ, PreMultiplyFlag_Translate, Hp.
    rewrite GetMatrix_RotateWXYZ by exact Hnz'.
    rewrite PreMultiplyFlag_Translate, Hp, GetMatrix_Translate, Hp.
    rewrite rotation_elements_unit by exact Hu. cbv zeta.
    rewrite half_of_engine_angle.
    unfold about_point. now rewrite !Multiply4x4_assoc.
  - rewrite GetMatrix_RotateWXYZ by exact Hnz'. rewrite Hp.
    rewrite rotation_elements_unit by exact Hu. cbv zeta.
    rewrite half_of_engine_angle, about_point_zero. reflexivity.
Qed.

Lemma rotatexyz_is_rotate_witness :
  matrix (rotate_z 45 false (Some (1, 2, 3)) fresh) =
  matrix (rotate 45 (0, 0, 1) (1, 2, 3) false fresh).
Proof. apply (rotatexyz_is_rotate axe_z 45 false (Some (1, 2, 3)) fresh). reflexivity. Defined.

(** X10. The [rad] flag is consistent: an angle given in radians with [rad=True]
    acts as the same angle given in degrees. *)
Theorem radians_agree_with_degrees
  (a : axe) (angle : R) (axis point : vec3) (around : option vec3) (t : LinearTransform) :
  post_mode t -> axis <> Vec.zero ->
  matrix (rotate (deg2rad angle) axis point true t) = matrix (rotate angle axis point false t) /\
  _rotatexyz a (deg2rad angle) true around t = _rotatexyz a angle false around t.
Proof.
  intros Hp Hax. split.
  - now rewrite !matrix_rotate by assumption.
  - unfold _rotatexyz, deg2rad.
    replace (angle * (PI / 180) * (180 / PI)) with angle by (field; apply PI_neq0).
    reflexivity.
Qed.

Lemma radians_agree_with_degrees_witness :
  matrix (rotate (deg2rad 90) (0, 1, 0) (1, 0, 0) true fresh) =
  matrix (rotate 90 (0, 1, 0) (1, 0, 0) false fresh) /\
  rotate_x (deg2rad 90) true None fresh = rotate_x 90 false None fresh.
Proof.
  apply (radians_agree_with_degrees axe_x 90 (0, 1, 0) (1, 0, 0) None fresh).
  - reflexivity.
  - unfold Vec.zero. intros E. injection E as E. lra.
Defined.

(** ** Composition and inversion on points *)

Lemma matrix_concatenate (o t : LinearTransform) (pre : bool) :
  post_mode t ->
  matrix (concatenate o pre t) =
    if pre then Multiply4x4 (matrix t) (matrix o) else Multiply4x4 (matrix o) (matrix t).
Proof.
  intros Hp. unfold matrix, concatenate. cbn [T with_T].
  rewrite GetMatrix_PostMultiply, GetMatrix_Concatenate.
  destruct pre; cbn [PreMultiply PreMultiplyFlag].
  - now rewrite GetMatrix_PreMultiply.
  - now rewrite Hp.
Qed.

(** X11. On affine transforms [concatenate(other)] applies [other] after the
    transform, and [concatenate(other, pre_multiply=True)] applies it
    before. *)
Theorem concatenate_order (o t : LinearTransform) (x : vec3) :
  post_mode t -> affine (matrix t) -> affine (matrix o) ->
  image (concatenate o false t) x = image o (image t x) /\
  image (concatenate o true t) x = image t (image o x).
Proof.
  intros Hp Ht Ho. rewrite !image_eq, !matrix_concatenate by exact Hp.
  split; now apply LinearTransformPoint_mul.
Qed.

Lemma affine_translate_fresh (p : vec3) : affine (matrix (translate p fresh)).
Proof. rewrite matrix_translate_fresh. repeat split. Qed.

Lemma concatenate_order_witness :
  let o := translate (1, 0, 0) fresh in
  let t := translate (0, 2, 0) fresh in
  image (concatenate o false t) (0, 0, 0) = image o (image t (0, 0, 0)) /\
  image (concatenate o true t) (0, 0, 0) = image t (image o (0, 0, 0)).
Proof.
  intros o t. apply concatenate_order.
  - apply post_mode_translate. reflexivity.
  - apply affine_translate_fresh.
  - apply affine_translate_fresh.
Defined.

Lemma inverse_unique (b m : vtkMatrix4x4) :
  nonsingular m -> Multiply4x4 b m = Identity -> b = Invert m.
Proof.
  intros Hm Hb.
  rewrite <- (Multiply4x4_Identity_r b), <- (Invert_right m Hm), <- Multiply4x4_assoc, Hb.
  apply Multiply4x4_Identity_l.
Qed.

Lemma affine_Invert (m : vtkMatrix4x4) : affine m -> nonsingular m -> affine (Invert m).
Proof.
  intros Ha Hn. rewrite Invert_nonsingular by exact Hn.
  unfold nonsingular in Hn.
  destruct m as [a00 a01 a02 a03 a10 a11 a12 a13 a20 a21 a22 a23 a30 a31 a32 a33].
  unfold affine in Ha. cbn [e30 e31 e32 e33] in Ha.
  destruct Ha as [-> [-> [-> ->]]].
  match type of Hn with ?D <> 0 => set (d := D) in * end.
  assert (Hd : det3 a00 a10 a20 a01 a11 a21 a02 a12 a22 = d)
    by (subst d; unfold Determinant, det3; cbn; ring).
  unfold affine, Adjoint, map16. cbn [e30 e31 e32 e33].
  repeat split; try (unfold Rdiv, det3; ring).
  rewrite Hd. now field.
Qed.

Lemma matrix_invert (t : LinearTransform) :
  nonsingular (matrix t) ->
  Multiply4x4 (matrix (invert t)) (matrix t) = Identity /\
  Multiply4x4 (matrix t) (matrix (invert t)) = Identity.
Proof.
  intros Hn. unfold matrix in *. pose proof (nonsingular_pieces _ Hn) as Hp.
  unfold invert. cbn [T]. unfold GetMatrix. rewrite TransformList_Inverse.
  split; [apply compose_inverse_left | apply compose_inverse_right]; exact Hp.
Qed.

Lemma LinearTransformPoint_Identity (x : vec3) : LinearTransformPoint Identity x = x.
Proof.
  destruct x as [[x0 x1] x2]. unfold LinearTransformPoint, Identity. cbn.
  f_equal; [f_equal|]; ring.
Qed.

(** X12. On an invertible affine transform [invert()] undoes [apply_to] on
    points, in both directions. *)
Theorem invert_undoes_apply (t : LinearTransform) (x : vec3) :
  nonsingular (matrix t) -> affine (matrix t) ->
  image (invert t) (image t x) = x /\ image t (image (invert t) x) = x.
Proof.
  intros Hn Ha. destruct (matrix_invert t Hn) as [Hl Hr]. rewrite !image_eq.
  split.
  - rewrite <- LinearTransformPoint_mul by exact Ha. rewrite Hl.
    apply LinearTransformPoint_Identity.
  - rewrite <- LinearTransformPoint_mul.
    + rewrite Hr. apply LinearTransformPoint_Identity.
    + rewrite (inverse_unique _ _ Hn Hl). now apply affine_Invert.
Qed.

Lemma nonsingular_translate_fresh (p : vec3) : nonsingular (matrix (translate p fresh)).
Proof.
  rewrite matrix_translate_fresh. unfold nonsingular. mat_unfold.
  intros E. ring_simplify in E. lra.
Qed.

Lemma invert_undoes_apply_witness :
  let t := translate (1, 2, 3) fresh in
  image (invert t) (image t (4, 5, 6)) = (4, 5, 6) /\
  image t (image (invert t) (4, 5, 6)) = (4, 5, 6).
Proof.
  intros t. apply invert_undoes_apply.
  - apply nonsingular_translate_fresh.
  - apply affine_translate_fresh.
Defined.

(** X13. After one or more calls of [invert()] the attribute [inverse_flag] is
    the engine's flag before the calls, flipped once per call; on a freshly
    constructed transform it is true exactly after an odd number of calls. *)
Theorem invert_parity (n : nat) (t : LinearTransform) :
  inverse_flag (Nat.iter (S n) invert t) = xorb (InverseFlag (T t)) (Nat.even n) /\
  inverse_flag (Nat.iter n invert fresh) = Nat.odd n.
Proof.
  assert (G : forall k u, inverse_flag (Nat.iter (S k) invert u) = xorb (InverseFlag (T u)) (Nat.even k)
                          /\ InverseFlag (T (Nat.iter (S k) invert u)) = xorb (InverseFlag (T u)) (Nat.even k)).
  { induction k as [|k IH]; intros u.
    - cbn. now destruct (InverseFlag (T u)).
    - destruct (IH u) as [_ IH2].
      change (Nat.iter (S (S k)) invert u) with (invert (Nat.iter (S k) invert u)).
      unfold invert at 1 3. cbn [T inverse_flag GetInverseFlag Inverse InverseFlag].
      rewrite IH2, Nat.even_succ, <- Nat.negb_even.
      now destruct (InverseFlag (T u)), (Nat.even k). }
  split; [apply G|].
  destruct n as [|n]; [reflexivity|].
  destruct (G n fresh) as [-> _]. cbn [T fresh PostMultiply InverseFlag Engine.new].
  rewrite Nat.odd_succ. now destruct (Nat.even n).
Qed.

Lemma Reqb_false (a b : R) : Reqb a b = false -> a <> b.
Proof. unfold Reqb. now destruct (Req_dec_T a b). Qed.

Lemma Reqb_refl (a : R) : Reqb a a = true.
Proof. unfold Reqb. now destruct (Req_dec_T a a). Qed.

Section SetScaleCurrent.

Context `{Decomposition}.

(** X14. Asking [set_scale] for the scale the transform already has leaves the
    transform exactly as it is, also on axes whose current scale is zero. *)
Theorem set_scale_current (t : LinearTransform) :
  set_scale (Seq3 (get_scale t)) t = Some t.
Proof.
  unfold set_scale, get_scale, truthy, truediv. cbv zeta. cbn [broadcast].
  destruct (GetScale (T t)) as [[b0 b1] b2]. cbn [vx vy vz fst snd].
  assert (F : forall b, (if negb (Reqb b 0) then if Reqb b 0 then None else Some (b / b)
                         else Some 1) = Some 1).
  { intros b. destruct (Reqb b 0) eqn:E; cbn [negb]; [reflexivity|].
    apply Reqb_false in E. f_equal. now field. }
  rewrite !F. unfold Scale. rewrite !Reqb_refl. cbn. now destruct t.
Qed.

End SetScaleCurrent.

(** ** Determinants *)

Lemma Determinant_translation (a b c : R) : Determinant (translation a b c) = 1.
Proof. mat_unfold. ring. Qed.

Lemma Determinant_scaling (a b c : R) : Determinant (scaling a b c) = a * b * c.
Proof. mat_unfold. ring. Qed.

Lemma Determinant_quaternion_matrix (w a b c : R) :
  w * w + a * a + b * b + c * c = 1 -> Determinant (quaternion_matrix w a b c) = 1.
Proof.
  intros Hn. set (n := w * w + a * a + b * b + c * c) in *.
  transitivity (n * n * n); [subst n; mat_unfold; ring | rewrite Hn; ring].
Qed.

Lemma Determinant_about_point (m : vtkMatrix4x4) (c : vec3) :
  Determinant (about_point m c) = Determinant m.
Proof.
  unfold about_point. rewrite !Determinant_Multiply4x4, !Determinant_translation. ring.
Qed.

Lemma Determinant_Translate (p : vec3) (e : vtkTransform) :
  Determinant (GetMatrix (Translate p e)) = Determinant (GetMatrix e).
Proof.
  rewrite GetMatrix_Translate.
  destruct (PreMultiplyFlag e); rewrite Determinant_Multiply4x4, Determinant_translation; ring.
Qed.

Lemma Determinant_Scale (a b c : R) (e : vtkTransform) :
  Determinant (GetMatrix (Scale a b c e)) = a * b * c * Determinant (GetMatrix e).
Proof.
  rewrite GetMatrix_Scale.
  destruct (PreMultiplyFlag e); rewrite Determinant_Multiply4x4, Determinant_scaling; ring.
Qed.

(** X15. Translations and rotations keep the determinant of the matrix, and
    [scale], whatever its [origin], multiplies it by the product of the
    three factors: a transform stays invertible under translations,
    rotations and scalings by nonzero factors. *)
Theorem determinant_effects
  (p : vec3) (angle : R) (axis point : vec3) (rad : bool)
  (s : scalar_or_seq) (origin : origin_arg) (t : LinearTransform) :
  post_mode t -> axis <> Vec.zero ->
  Determinant (matrix (translate p t)) = Determinant (matrix t) /\
  Determinant (matrix (rotate angle axis point rad t)) = Determinant (matrix t) /\
  Determinant (matrix (scale s origin t)) =
    vx (broadcast s) * vy (broadcast s) * vz (broadcast s) * Determinant (matrix t).
Proof.
  intros Hp Hax. split; [|split].
  - apply Determinant_Translate.
  - rewrite matrix_rotate by assumption. cbv zeta.
    rewrite Determinant_Multiply4x4, Determinant_about_point, Determinant_quaternion_matrix.
    + ring.
    + set (h := (if rad then angle else deg2rad angle) / 2).
      set (u := sdiv axis (norm axis)).
      pose proof (normalised_unit axis Hax) as Hu. cbv zeta in Hu. fold u in Hu.
      pose proof (sin2_cos2 h) as Hsc. unfold Rsqr in Hsc.
      replace (cos h * cos h + vx u * sin h * (vx u * sin h)
               + vy u * sin h * (vy u * sin h) + vz u * sin h * (vz u * sin h))
        with (cos h * cos h + (vx u * vx u + vy u * vy u + vz u * vz u) * (sin h * sin h))
        by ring.
      rewrite Hu. lra.
  - unfold matrix, scale. destruct (broadcast s) as [[s0 s1] s2]. cbn [vx vy vz fst snd].
    destruct origin; try destruct (Rlt_dec 0 (norm (GetPosition (T t)))); cbn [T with_T];
      rewrite ?Determinant_Translate, Determinant_Scale, ?Determinant_Translate; reflexivity.
Qed.

Lemma determinant_effects_witness :
  Determinant (matrix (translate (1, 2, 3) fresh)) = Determinant (matrix fresh) /\
  Determinant (matrix (rotate 30 (0, 0, 1) (1, 0, 0) false fresh)) = Determinant (matrix fresh) /\
  Determinant (matrix (scale (Scalar 2) OriginTrue fresh)) =
    vx (broadcast (Scalar 2)) * vy (broadcast (Scalar 2)) * vz (broadcast (Scalar 2))
    * Determinant (matrix fresh).
Proof.
  apply (determinant_effects (1, 2, 3) 30 (0, 0, 1) (1, 0, 0) false (Scalar 2) OriginTrue fresh).
  - reflexivity.
  - unfold Vec.zero. intros E. injection E as E. lra.
Defined.

(** ** The matrix property and nested sequences *)

Lemma copy_elements_rows (m : vtkMatrix4x4) : copy_elements (rows m) Identity = Some m.
Proof. now destruct m. Qed.

(** X16. Reading the matrix and assigning it back keeps the matrix and leaves a
    single piece in the concatenation; constructing from the rows of a
    matrix gives a transform with that matrix. *)
Theorem matrix_round_trip (t : LinearTransform) (m : vtkMatrix4x4) :
  (exists t', set_matrix (rows (matrix t)) t = Some t' /\
              matrix t' = matrix t /\ n_concatenated_transforms t' = 1%nat) /\
  (exists u, __init__ (ArgSequence (rows m)) = Some u /\ matrix u = m).
Proof.
  split.
  - unfold set_matrix. rewrite copy_elements_rows. eexists. split; [reflexivity|].
    unfold matrix, n_concatenated_transforms. cbn [T with_T].
    rewrite GetMatrix_SetMatrix. split; [reflexivity|].
    unfold SetMatrix, ConcatenateElements, GetNumberOfConcatenatedTransforms, TransformList.
    cbn [Identity_ PreMultiplyFlag]. now destruct (PreMultiplyFlag (T t)).
  - unfold __init__. rewrite copy_elements_rows. eexists. split; [reflexivity|].
    unfold matrix. cbn [T]. now rewrite GetMatrix_PostMultiply, GetMatrix_SetMatrix.
Qed.

Lemma for_range_fails {S : Type} (idx : list nat) (body : nat -> S -> option S) (k : nat) :
  In k idx -> (forall s, body k s = None) -> forall s, for_range idx body s = None.
Proof.
  intros Hin Hk. induction idx as [|i idx IH]; [contradiction|]. intros s. cbn [for_range].
  destruct Hin as [->|Hin].
  - now rewrite Hk.
  - destruct (body i s); [now apply IH | reflexivity].
Qed.

Lemma copy_elements_ragged (S : list (list R)) (i : nat) (row : list R) (M : vtkMatrix4x4) :
  nth_error S i = Some row -> (length row < length S)%nat ->
  copy_elements S M = None.
Proof.
  intros Hi Hlen. unfold copy_elements.
  apply (for_range_fails _ _ i).
  - apply in_seq. split; [lia|]. cbn. apply nth_error_Some. now rewrite Hi.
  - intros M'. apply (for_range_fails _ _ (length row)).
    + apply in_seq. lia.
    + intros M''. rewrite Hi.
      now replace (nth_error row (length row)) with (@None R)
        by (symmetry; apply nth_error_None; lia).
Qed.

(** X17. A nested sequence of at most four rows with a row shorter than the
    number of rows is rejected, by the constructor and by the [matrix]
    setter alike: no partially filled matrix is installed. *)
Theorem ragged_sequence_raises (S : list (list R)) (i : nat) (row : list R) :
  (length S <= 4)%nat -> nth_error S i = Some row -> (length row < length S)%nat ->
  __init__ (ArgSequence S) = None /\ forall t, set_matrix S t = None.
Proof.
  intros _ Hi Hlen. unfold __init__, set_matrix.
  now rewrite (copy_elements_ragged S i row Identity Hi Hlen).
Qed.

Lemma ragged_sequence_raises_witness :
  __init__ (ArgSequence [[1; 0; 0]; [0; 1]; [0; 0; 1]]) = None /\
  forall t, set_matrix [[1; 0; 0]; [0; 1]; [0; 0; 1]] t = None.
Proof.
  apply (ragged_sequence_raises [[1; 0; 0]; [0; 1]; [0; 0; 1]] 1 [0; 1]).
  - cbn. lia.
  - reflexivity.
  - cbn. lia.
Defined.

(** ** Objects and points near the identity *)

Lemma atol_pos : 0 <= atol.
Proof. unfold atol. lra. Qed.

(** X18. A nonzero translation of at most the tolerance 1e-8 on each axis
    gives a fresh transform a matrix that is not the identity, and yet
    [apply_to] does not apply it to a geometric object: the object gets its
    [transform] attribute set, its points and locators stay as they are. *)
Theorem tiny_translation_ignored (p : vec3) (obj : Mesh) :
  p <> Vec.zero ->
  Rabs (vx p) <= atol -> Rabs (vy p) <= atol -> Rabs (vz p) <= atol ->
  matrix (translate p fresh) <> Identity /\
  apply_to (translate p fresh) (Object obj) =
    Updated (mkMesh (points obj) (Some (translate p fresh))
                    (point_locator obj) (cell_locator obj) (line_locator obj)).
Proof.
  intros Hnz H0 H1 H2. split.
  - rewrite matrix_translate_fresh. intros E. apply Hnz.
    destruct p as [[p0 p1] p2]. cbn [vx vy vz fst snd] in E.
    pose proof (f_equal e03 E) as E0. pose proof (f_equal e13 E) as E1.
    pose proof (f_equal e23 E) as E2. cbn in E0, E1, E2.
    unfold Vec.zero. now rewrite E0, E1, E2.
  - unfold apply_to. fold (matrix (translate p fresh)). rewrite matrix_translate_fresh.
    replace (allclose (minus_eye (translation (vx p) (vy p) (vz p))) 0) with true; [reflexivity|].
    symmetry. apply allclose_zero.
    pose proof atol_pos as Hat.
    unfold minus_eye, elements, translation, Identity.
    cbn [map combine fst snd e00 e01 e02 e03 e10 e11 e12 e13 e20 e21 e22 e23 e30 e31 e32 e33].
    repeat (apply Forall_cons;
            [ first [ rewrite Rminus_0_r; assumption
                    | replace (1 - 1) with 0 by ring; now rewrite Rabs_R0
                    | replace (0 - 0) with 0 by ring; now rewrite Rabs_R0 ] | ]).
    apply Forall_nil.
Qed.

Lemma tiny_translation_ignored_witness :
  matrix (translate (5e-9, 0, 0) fresh) <> Identity /\
  apply_to (translate (5e-9, 0, 0) fresh) (Object (mkMesh [(1, 2, 3)] None None None None)) =
    Updated (mkMesh [(1, 2, 3)] (Some (translate (5e-9, 0, 0) fresh)) None None None).
Proof.
  apply (tiny_translation_ignored (5e-9, 0, 0) (mkMesh [(1, 2, 3)] None None None None));
    cbn [vx vy vz fst snd]; unfold atol.
  - unfold Vec.zero. intros E. injection E as E. lra.
  - rewrite Rabs_pos_eq; lra.
  - rewrite Rabs_R0; lra.
  - rewrite Rabs_R0; lra.
Defined.

(** ** Invariants along a sequence of calls *)

Lemma affine_Identity : affine Identity.
Proof. repeat split. Qed.

Lemma affine_mul (a b : vtkMatrix4x4) : affine a -> affine b -> affine (Multiply4x4 a b).
Proof.
  destruct a, b. unfold affine. cbn [e30 e31 e32 e33].
  intros [-> [-> [-> ->]]] [-> [-> [-> ->]]]. cbn. repeat split; ring.
Qed.

Lemma affine_Invert_any (m : vtkMatrix4x4) : affine m -> affine (Invert m).
Proof.
  intros Ha. destruct (Req_dec_T (Determinant m) 0) as [Hz|Hn].
  - unfold Invert. now destruct (Req_dec_T (Determinant m) 0).
  - now apply affine_Invert.
Qed.

Lemma affine_compose (l : list vtkMatrix4x4) : Forall affine l -> affine (compose l).
Proof.
  induction 1 as [|p l Hp Hl IH]; cbn [compose];
    [apply affine_Identity | now apply affine_mul].
Qed.

Lemma affine_or_identity (o : option vtkMatrix4x4) :
  Forall affine (opt_list o) -> affine (or_identity o).
Proof. destruct o; cbn; intros Ho; [now inversion Ho | apply affine_Identity]. Qed.

Lemma affine_engine_ConcatenateElements (a : vtkMatrix4x4) (e : vtkTransform) :
  affine a -> affine_engine e -> affine_engine (ConcatenateElements a e).
Proof.
  unfold affine_engine, ConcatenateElements, TransformList. intros Ha He.
  apply Forall_app in He as [Hpre He]. apply Forall_app in He as [Hmid Hpost].
  destruct (PreMultiplyFlag e); cbn [PreMatrix Middle PostMatrix opt_list];
    repeat (apply Forall_app; split); try assumption;
    (constructor; [|constructor]); apply affine_mul; try assumption;
    now apply affine_or_identity.
Qed.

Lemma affine_engine_Concatenate (o e : vtkTransform) :
  affine (GetMatrix o) -> affine_engine e -> affine_engine (Concatenate o e).
Proof.
  unfold affine_engine, Concatenate, TransformList. intros Ho He.
  apply Forall_app in He as [Hpre He]. apply Forall_app in He as [Hmid Hpost].
  destruct (PreMultiplyFlag e); cbn [PreMatrix Middle PostMatrix opt_list app].
  - constructor; [exact Ho|]. rewrite <- app_assoc.
    repeat (apply Forall_app; split); assumption.
  - rewrite app_nil_r.
    apply Forall_app; split; [exact Hpre|].
    apply Forall_app; split; [exact Hmid|].
    apply Forall_app; split; [exact Hpost|].
    apply Forall_cons; [exact Ho | apply Forall_nil].
Qed.

Lemma affine_engine_Inverse (e : vtkTransform) :
  affine_engine e -> affine_engine (Inverse e).
Proof.
  unfold affine_engine. rewrite TransformList_Inverse. intros He.
  apply Forall_rev, Forall_map. revert He. apply Forall_impl. exact affine_Invert_any.
Qed.

Lemma affine_engine_Translate (p : vec3) (e : vtkTransform) :
  affine_engine e -> affine_engine (Translate p e).
Proof.
  destruct p as [[a b] c]. unfold Translate. intros He.
  destruct (Reqb a 0 && Reqb b 0 && Reqb c 0); [exact He|].
  apply affine_engine_ConcatenateElements; [repeat split | exact He].
Qed.

Lemma affine_engine_Scale (a b c : R) (e : vtkTransform) :
  affine_engine e -> affine_engine (Scale a b c e).
Proof.
  unfold Scale. intros He.
  destruct (Reqb a 1 && Reqb b 1 && Reqb c 1); [exact He|].
  apply affine_engine_ConcatenateElements; [repeat split | exact He].
Qed.

Lemma affine_engine_RotateWXYZ (angle a b c : R) (e : vtkTransform) :
  affine_engine e -> affine_engine (RotateWXYZ angle a b c e).
Proof.
  unfold RotateWXYZ. intros He.
  destruct (Reqb angle 0 || (Reqb a 0 && Reqb b 0 && Reqb c 0)); [exact He|].
  apply affine_engine_ConcatenateElements; [apply affine_quaternion_matrix | exact He].
Qed.

Lemma affine_engine_SetMatrix (m : vtkMatrix4x4) (e : vtkTransform) :
  affine m -> affine_engine (SetMatrix m e).
Proof.
  intros Hm. apply affine_engine_ConcatenateElements; [exact Hm | constructor].
Qed.

Lemma affine_engine_fresh : affine_engine (T fresh).
Proof. constructor. Qed.

Section Invariants.

Context `{Decomposition}.

Lemma affine_engine_call (m : method) (t t' : LinearTransform) :
  affine_engine (T t) -> affine_call m -> call m t = Some t' -> affine_engine (T t').
Proof.
  intros Ha Hm E.
  destruct m; cbn [call affine_call] in *.
  - now injection E as <-.
  - injection E as <-. constructor.
  - now injection E as <-.
  - injection E as <-. now apply affine_engine_Inverse.
  - now injection E as <-.
  - rewrite clone_raises in E. discriminate.
  - injection E as <-. unfold concatenate. cbn [T with_T].
    apply (affine_engine_Concatenate (T other)); [exact Hm|].
    now destruct pre_multiply.
  - destruct (get_concatenated_transform i t); [now injection E as <- | discriminate].
  - injection E as <-. now apply affine_engine_Translate.
  - injection E as <-. unfold scale. destruct (broadcast s) as [[s0 s1] s2].
    destruct origin; try destruct (Rlt_dec 0 (norm (GetPosition (T t)))); cbn [T with_T];
      repeat first [ apply affine_engine_Translate | apply affine_engine_Scale ]; exact Ha.
  - injection E as <-. unfold rotate. cbn [T with_T].
    now apply affine_engine_Translate, affine_engine_RotateWXYZ.
  - injection E as <-. unfold rotate_x, _rotatexyz, RotateX.
    destruct around; cbn [T with_T];
      repeat first [ apply affine_engine_Translate | apply affine_engine_RotateWXYZ ]; exact Ha.
  - injection E as <-. unfold rotate_y, _rotatexyz, RotateY.
    destruct around; cbn [T with_T];
      repeat first [ apply affine_engine_Translate | apply affine_engine_RotateWXYZ ]; exact Ha.
  - injection E as <-. unfold rotate_z, _rotatexyz, RotateZ.
    destruct around; cbn [T with_T];
      repeat first [ apply affine_engine_Translate | apply affine_engine_RotateWXYZ ]; exact Ha.
  - injection E as <-. now apply affine_engine_Translate.
  - unfold set_scale in E. cbv zeta in E.
    repeat match type of E with
           | match ?o with _ => _ end = _ => destruct o; try discriminate
           end;
      injection E as <-; now apply affine_engine_Scale.
  - unfold set_matrix in E.
    destruct (copy_elements M Identity); [|discriminate]. injection E as <-.
    now apply affine_engine_SetMatrix.
  - now injection E as <-.
Qed.

(** X19. Starting from a transform whose pieces are affine, any sequence of
    calls keeps the last row of the matrix at [0, 0, 0, 1], as long as the
    matrices brought in by [concatenate] and by the [matrix] setter are
    affine themselves and every [rotate] is given a nonzero axis. *)
Theorem affine_run (ms : list method) (t t' : LinearTransform) :
  affine_engine (T t) -> Forall affine_call ms -> run ms t = Some t' ->
  affine (matrix t').
Proof.
  intros Ha Hms E. apply affine_compose. fold (affine_engine (T t')).
  revert t Ha E. induction Hms as [|m ms Hm Hms IH]; intros t Ha E; cbn [run] in E.
  - now injection E as <-.
  - destruct (call m t) as [t1|] eqn:E1; [|discriminate].
    apply (IH t1); [|exact E].
    now apply (affine_engine_call m t t1).
Qed.

(** X20. After the constructor and any sequence of calls that return, the
    engine is in post-multiply mode. *)
Theorem post_mode_run (arg : init_arg) (ms : list method) (t t' : LinearTransform) :
  __init__ arg = Some t -> run ms t = Some t' -> post_mode t'.
Proof.
  intros Hi. apply post_mode_init in Hi. revert t Hi.
  induction ms as [|m ms IH]; intros t Hp E; cbn [run] in E.
  - now injection E as <-.
  - destruct (call m t) as [t1|] eqn:E1; [|discriminate].
    apply (IH t1); [|exact E]. now apply (post_mode_call m t t1).
Qed.

End Invariants.

Lemma affine_run_witness :
  affine (matrix (scale (Scalar 2) OriginTrue (invert (translate (1, 2, 3) fresh)))).
Proof.
  apply (@affine_run diagonal_decomposition
           [m_translate (1, 2, 3); m_invert; m_scale (Scalar 2) OriginTrue] fresh).
  - exact affine_engine_fresh.
  - repeat (apply Forall_cons; [exact I|]). apply Forall_nil.
  - reflexivity.
Defined.

Lemma post_mode_run_witness :
  post_mode (concatenate fresh true (invert (translate (1, 2, 3) fresh))).
Proof.
  apply (@post_mode_run diagonal_decomposition ArgNone
           [m_translate (1, 2, 3); m_invert; m_concatenate fresh true] fresh).
  - reflexivity.
  - reflexivity.
Defined.
